(** * Changelly connector: request signer and user-stream supervisor

    Shallow embedding of
      hummingbot/connector/exchange/changelly/changelly_auth.py
      hummingbot/connector/exchange/changelly/changelly_api_user_stream_data_source.py

    Python [str] values are represented by their UTF-8 encoding, a Rocq
    [string] of bytes: [str.encode()] is then the identity, and [+] and
    [str.join] are concatenation of the encodings. *)

From Stdlib Require Import ZArith QArith String Ascii List Lia Bool.
From Stdlib Require Import DecimalString SpecFloat.
From stdpp Require Import gmap strings list fin_maps.

Set Warnings "-register-all".

Local Open Scope string_scope.
Local Open Scope list_scope.
Local Open Scope Z_scope.

(* ===================================================================== *)
(** * Python library functions used by the signer                         *)
(* ===================================================================== *)

Module Py.

(** [str(n)] for a Python [int]. *)
Definition str_int (n : Z) : string :=
  NilZero.string_of_int (Z.to_int n).

(** [sep.join(parts)]. *)
Fixpoint join (sep : string) (parts : list string) : string :=
  match parts with
  | [] => ""
  | [p] => p
  | p :: rest => p +:+ sep +:+ join sep rest
  end.

(** Truthiness of a [str]: the empty string is falsy. *)
Definition truthy (s : string) : bool :=
  match s with
  | EmptyString => false
  | String _ _ => true
  end.

(** Python's [float] is IEEE 754 binary64: 53 bits of precision, results
    rounded to nearest, ties to even, as the Standard Library's
    [SpecFloat] specifies them. *)
Definition float_of_int (n : Z) : spec_float := binary_normalize 53 1024 n 0 false.

(** The double that a rational stands for: the rational itself when it
    is a double (its numerator and denominator then convert exactly), and
    otherwise the rounded quotient of the two converted integers. *)
Definition float_of (x : Q) : spec_float :=
  SFdiv 53 1024 (float_of_int (Qnum x)) (float_of_int (Zpos (Qden x))).

(** [x * y] on floats. *)
Definition float_mul (x y : spec_float) : spec_float := SFmul 53 1024 x y.

(** [int(x)] for a float: truncation toward 0; [None] where Python raises
    (OverflowError on an infinity, ValueError on a NaN). *)
Definition int_of_float (x : spec_float) : option Z :=
  match x with
  | S754_zero _ => Some 0
  | S754_finite s m e =>
      let magnitude :=
        if 0 <=? e then Zpos m * 2 ^ e else Z.quot (Zpos m) (2 ^ (- e)) in
      Some (if s then - magnitude else magnitude)
  | S754_infinity _ | S754_nan => None
  end.

(** [int(time_time * 1000)] (and [int(time_time * 1e3)], the same float
    product) for a reading [time_time] of [time.time()]. A reading is a
    64-bit count of nanoseconds divided by 10^9, of magnitude below 10^10,
    so the product is finite and [int] returns; the last case does not
    arise for a reading. *)
Definition timestamp_ms (time_time : Q) : Z :=
  match int_of_float (float_mul (float_of time_time) (float_of_int 1000)) with
  | Some n => n
  | None => 0
  end.

Definition bytes_of (s : string) : list Z :=
  map (fun a => Z.of_N (N_of_ascii a)) (list_ascii_of_string s).

Definition byte_char (b : Z) : ascii := ascii_of_N (Z.to_N (b mod 256)).

Definition string_of_bytes (bs : list Z) : string :=
  string_of_list_ascii (map byte_char bs).

End Py.

(** ** Base64 (RFC 4648, standard alphabet, [=] padding): [base64.b64encode] *)

Module Base64.

Definition alphabet : string :=
  "ABCDEFGHIJKLMNOPQRSTUVWXYZabcdefghijklmnopqrstuvwxyz0123456789+/".

Definition digit (n : Z) : ascii :=
  match String.get (Z.to_nat (n mod 64)) alphabet with
  | Some c => c
  | None => "="%char
  end.

Definition code (a : ascii) : Z := Z.of_N (N_of_ascii a).

Fixpoint b64encode (s : string) : string :=
  match s with
  | EmptyString => EmptyString
  | String a EmptyString =>
      let n := Z.shiftl (code a) 16 in
      String (digit (Z.shiftr n 18)) (String (digit (Z.shiftr n 12)) "==")
  | String a (String b EmptyString) =>
      let n := Z.lor (Z.shiftl (code a) 16) (Z.shiftl (code b) 8) in
      String (digit (Z.shiftr n 18)) (String (digit (Z.shiftr n 12))
        (String (digit (Z.shiftr n 6)) "="))
  | String a (String b (String c rest)) =>
      let n := Z.lor (Z.lor (Z.shiftl (code a) 16) (Z.shiftl (code b) 8)) (code c) in
      String (digit (Z.shiftr n 18)) (String (digit (Z.shiftr n 12))
        (String (digit (Z.shiftr n 6)) (String (digit n) (b64encode rest))))
  end.

End Base64.

(** ** SHA-256 (FIPS 180-4) and HMAC (RFC 2104): [hashlib.sha256], [hmac.new] *)

Module SHA256.

Definition w32 (x : Z) : Z := x mod 2 ^ 32.
Definition add32 (x y : Z) : Z := w32 (x + y).
Definition rotr (n x : Z) : Z :=
  Z.lor (Z.shiftr x n) (w32 (Z.shiftl x (32 - n))).
Definition shr (n x : Z) : Z := Z.shiftr x n.
Definition not32 (x : Z) : Z := 2 ^ 32 - 1 - x.

Definition Ch (x y z : Z) : Z := Z.lxor (Z.land x y) (Z.land (not32 x) z).
Definition Maj (x y z : Z) : Z :=
  Z.lxor (Z.lxor (Z.land x y) (Z.land x z)) (Z.land y z).
Definition Sigma0 (x : Z) : Z := Z.lxor (Z.lxor (rotr 2 x) (rotr 13 x)) (rotr 22 x).
Definition Sigma1 (x : Z) : Z := Z.lxor (Z.lxor (rotr 6 x) (rotr 11 x)) (rotr 25 x).
Definition sigma0 (x : Z) : Z := Z.lxor (Z.lxor (rotr 7 x) (rotr 18 x)) (shr 3 x).
Definition sigma1 (x : Z) : Z := Z.lxor (Z.lxor (rotr 17 x) (rotr 19 x)) (shr 10 x).

(** The constants are fractional parts of roots of the first primes:
    square roots of the first 8 for the initial hash value, cube roots of
    the first 64 for the round constants, 32 bits each. *)
Definition is_prime (n : nat) : bool :=
  forallb (fun d => negb (Nat.eqb (Nat.modulo n d) 0)) (seq 2 (n - 2)).

Definition primes (count : nat) : list Z :=
  map Z.of_nat (firstn count (List.filter is_prime (seq 2 400))).

(** The largest [r] below [2 ^ bits] with [r ^ k <= n], bit by bit. *)
Fixpoint root_bits (k n : Z) (bits : nat) (r : Z) : Z :=
  match bits with
  | O => r
  | S b =>
      let r' := r + 2 ^ Z.of_nat b in
      root_bits k n b (if r' ^ k <=? n then r' else r)
  end.

Definition frac_root (k p : Z) : Z :=
  root_bits k (p * 2 ^ (32 * k)) 36 0 mod 2 ^ 32.

Definition K : list Z := Eval vm_compute in map (frac_root 3) (primes 64).

Definition H0 : list Z := Eval vm_compute in map (frac_root 2) (primes 8).

(** Big-endian encoding of [x] on [n] bytes. *)
Fixpoint be_bytes (n : nat) (x : Z) : list Z :=
  match n with
  | O => []
  | S m => (Z.shiftr x (8 * Z.of_nat m)) mod 256 :: be_bytes m x
  end.

(** Padding: a [0x80] byte, zeros up to 56 mod 64, the bit length on 8 bytes. *)
Definition pad (msg : list Z) : list Z :=
  let len := Z.of_nat (length msg) in
  let zeros := Z.to_nat ((55 - len) mod 64) in
  msg ++ 0x80 :: repeat 0 zeros ++ be_bytes 8 (8 * len).

Fixpoint words (bs : list Z) : list Z :=
  match bs with
  | a :: b :: c :: d :: rest =>
      (Z.shiftl a 24 + Z.shiftl b 16 + Z.shiftl c 8 + d) :: words rest
  | _ => []
  end.

(** The message schedule, kept most recent word first. *)
Fixpoint schedule (n : nat) (rev_w : list Z) : list Z :=
  match n with
  | O => rev_w
  | S m =>
      let w := fun i => nth i rev_w 0 in
      schedule m
        (add32 (add32 (sigma1 (w 1%nat)) (w 6%nat))
               (add32 (sigma0 (w 14%nat)) (w 15%nat)) :: rev_w)
  end.

Record regs := Regs { ra : Z; rb : Z; rc : Z; rd : Z; re : Z; rf : Z; rg : Z; rh : Z }.

Definition round (r : regs) (kw : Z * Z) : regs :=
  let t1 := add32 (add32 (add32 (rh r) (Sigma1 (re r))) (Ch (re r) (rf r) (rg r)))
                  (add32 (fst kw) (snd kw)) in
  let t2 := add32 (Sigma0 (ra r)) (Maj (ra r) (rb r) (rc r)) in
  Regs (add32 t1 t2) (ra r) (rb r) (rc r) (add32 (rd r) t1) (re r) (rf r) (rg r).

Definition regs_of (h : list Z) : regs :=
  let g := fun i => nth i h 0 in
  Regs (g 0%nat) (g 1%nat) (g 2%nat) (g 3%nat) (g 4%nat) (g 5%nat) (g 6%nat) (g 7%nat).

Definition compress (h : list Z) (block : list Z) : list Z :=
  let w := rev (schedule 48 (rev block)) in
  let r := fold_left round (combine K w) (regs_of h) in
  let i := regs_of h in
  [ add32 (ra i) (ra r); add32 (rb i) (rb r); add32 (rc i) (rc r); add32 (rd i) (rd r);
    add32 (re i) (re r); add32 (rf i) (rf r); add32 (rg i) (rg r); add32 (rh i) (rh r) ].

Fixpoint blocks (fuel : nat) (h : list Z) (ws : list Z) : list Z :=
  match fuel with
  | O => h
  | S f =>
      match ws with
      | [] => h
      | _ => blocks f (compress h (firstn 16 ws)) (skipn 16 ws)
      end
  end.

(** The 32-byte digest of a byte string. *)
Definition digest (msg : list Z) : list Z :=
  let ws := words (pad msg) in
  flat_map (be_bytes 4) (blocks (length ws) H0 ws).

Definition block_size : nat := 64.

End SHA256.

Module Hex.

Definition digit (n : Z) : ascii :=
  match String.get (Z.to_nat (n mod 16)) "0123456789abcdef" with
  | Some c => c
  | None => "0"%char
  end.

(** [bytes.hex()]: two lowercase hexadecimal digits per byte. *)
Fixpoint hex (bs : list Z) : string :=
  match bs with
  | [] => EmptyString
  | b :: rest => String (digit (Z.shiftr b 4)) (String (digit b) (hex rest))
  end.

End Hex.

Module HMAC.

Definition xor_pad (c : Z) (key : list Z) : list Z :=
  map (fun b => Z.lxor b c) key.

(** Keys longer than a block are hashed, then the key is zero-padded to a block. *)
Definition block_key (key : list Z) : list Z :=
  let k := if (SHA256.block_size <? length key)%nat then SHA256.digest key else key in
  k ++ repeat 0 (SHA256.block_size - length k).

Definition hmac_sha256 (key msg : list Z) : list Z :=
  let k := block_key key in
  SHA256.digest (xor_pad 0x5c k ++ SHA256.digest (xor_pad 0x36 k ++ msg)).

(** [hmac.new(key.encode(), msg.encode(), hashlib.sha256).hexdigest()] *)
Definition hexdigest (key msg : string) : string :=
  Hex.hex (hmac_sha256 (Py.bytes_of key) (Py.bytes_of msg)).

End HMAC.

(* ===================================================================== *)
(** * Data shared by the two source files                                  *)
(* ===================================================================== *)

(** JSON-shaped Python values: payloads sent to and frames received from
    the venue. A [dict] keeps its insertion order. *)
Inductive json : Type :=
| JNull
| JBool (b : bool)
| JInt (n : Z)
| JStr (s : string)
| JList (items : list json)
| JObj (fields : list (string * json)).

(** Modelled from the spec: the enumeration of HTTP methods is declared in
    hummingbot.core.web_assistant.connections.data_types, outside the two
    files; [str(request.method)] is the HTTP method name. *)
Inductive RESTMethod : Type := GET | POST | PUT | DELETE.

Definition RESTMethod_str (m : RESTMethod) : string :=
  match m with
  | GET => "GET"
  | POST => "POST"
  | PUT => "PUT"
  | DELETE => "DELETE"
  end.

(** The fields of a [RESTRequest] that the signer reads or writes. *)
Record RESTRequest : Type := mkRESTRequest {
  method : RESTMethod;
  url : string;
  data : option string;
  headers : option (gmap string string)
}.

(** The result of [urllib.parse.urlsplit]. *)
Record SplitResult : Type := mkSplitResult {
  scheme : string;
  netloc : string;
  path : string;
  query : string;
  fragment : string
}.

(* ===================================================================== *)
(** * changelly_auth.py                                                    *)
(* ===================================================================== *)

Record ChangellyAuth : Type := mkChangellyAuth {
  api_key : string;
  secret_key : string;
  window : Z
}.

(** [ChangellyAuth.__init__]; the [time_provider] argument is stored and
    never read by the class. *)
Definition ChangellyAuth_init (api_key secret_key : string) : ChangellyAuth :=
  {| api_key := api_key; secret_key := secret_key; window := 50000 |}.

(** [ChangellyAuth._generate_signature] *)
Definition _generate_signature (self : ChangellyAuth) (message : list string) : string :=
  HMAC.hexdigest (secret_key self) (Py.join "" message).

(** [ChangellyAuth.ws_authenticate]; [time_time] is the value that
    [time.time()] returns during the call. *)
Definition ws_authenticate (self : ChangellyAuth) (time_time : Q) : json :=
  let timestamp := Py.timestamp_ms time_time in
  let window := 10000 in
  let message := Py.str_int timestamp in
  let message := if window =? 0 then message else message +:+ Py.str_int window in
  let sign := HMAC.hexdigest (secret_key self) message in
  JObj [ ("method", JStr "login");
         ("params", JObj [ ("type", JStr "HS256");
                           ("api_key", JStr (api_key self));
                           ("timestamp", JInt timestamp);
                           ("window", JInt window);
                           ("signature", JStr sign) ]) ].

Section RestSigner.

(** [urllib.parse.urlsplit], a function of the Python library. *)
Variable urlsplit : string -> SplitResult.

(** [ChangellyAuth.header_for_authentication] *)
Definition header_for_authentication
    (self : ChangellyAuth) (request : RESTRequest) (time_time : Q)
    : gmap string string :=
  let url := urlsplit (url request) in
  let message := [RESTMethod_str (method request); path url] in
  let message :=
    if Py.truthy (query url) then (message ++ ["?"]) ++ [query url] else message in
  let message :=
    match data request with
    | Some body => if Py.truthy body then message ++ [body] else message
    | None => message
    end in
  let timestamp := Py.str_int (Py.timestamp_ms time_time) in
  let message := message ++ [timestamp] in
  let signature := _generate_signature self message in
  let data := [api_key self; signature; timestamp] in
  let base64_encoded := Base64.b64encode (Py.join ":" data) in
  {[ "Authorization" := "HS256 " +:+ base64_encoded ]}.

(** [ChangellyAuth.rest_authenticate]; [dict.update] lets the new
    entries win over the old ones. *)
Definition rest_authenticate
    (self : ChangellyAuth) (request : RESTRequest) (time_time : Q) : RESTRequest :=
  let headers0 : gmap string string := ∅ in
  let headers1 :=
    match headers request with
    | Some h => h ∪ headers0
    | None => headers0
    end in
  let headers2 := header_for_authentication self request time_time ∪ headers1 in
  {| method := method request; url := url request; data := data request;
     headers := Some headers2 |}.

End RestSigner.

(* ===================================================================== *)
(** * changelly_api_user_stream_data_source.py                             *)
(* ===================================================================== *)

(** Exceptions. [CancelledError] and the [NonError] classes (KeyboardInterrupt,
    SystemExit, ...) derive from [BaseException] only; the others derive
    from [Exception]. *)
Inductive exn : Type :=
| CancelledError
| TimeoutError
| KeyError (key : string)
| TypeError (msg : string)
| Error (name : string)
| NonError (name : string).

Definition is_Exception (e : exn) : bool :=
  match e with
  | CancelledError | NonError _ => false
  | TimeoutError | KeyError _ | TypeError _ | Error _ => true
  end.

Inductive result (A : Type) : Type :=
| Ok (a : A)
| Raise (e : exn).
Arguments Ok {A} a.
Arguments Raise {A} e.

Module PyDict.

(** [d[k]] when [k in d], for a dict given by its items. *)
Fixpoint get (k : string) (d : list (string * json)) : option json :=
  match d with
  | [] => None
  | (k', v) :: rest => if String.eqb k k' then Some v else get k rest
  end.

End PyDict.

(** [value == s] for a string literal [s]. *)
Definition str_eq (value : json) (s : string) : bool :=
  match value with
  | JStr s' => String.eqb s' s
  | _ => false
  end.

(** The characters of a [str], each as a one-character [str]. *)
Fixpoint utf8_chars (s : string) : list string :=
  match s with
  | EmptyString => []
  | String a rest =>
      match utf8_chars rest with
      | String b c :: cs =>
          if (128 <=? Base64.code b) && (Base64.code b <? 192)
          then String a (String b c) :: cs
          else String a EmptyString :: String b c :: cs
      | cs => String a EmptyString :: cs
      end
  end.

(** What [for x in value] iterates over; [None] when the value is not iterable. *)
Definition py_iter (value : json) : option (list json) :=
  match value with
  | JList items => Some items
  | JObj fields => Some (map (fun kv => JStr (fst kv)) fields)
  | JStr s => Some (map JStr (utf8_chars s))
  | JNull | JBool _ | JInt _ => None
  end.

(** Identity of a [WSAssistant] object handed out by the factory. *)
Definition handle : Type := nat.

(** The calls the coroutine makes on its collaborators, in program order. *)
Inductive event : Type :=
| get_ws_assistant
| connect (ws : handle) (ws_url : string)
| send (ws : handle) (payload : json)
| wait_for_messages (ws : handle) (timeout : Q)
| disconnect (ws : handle)
| sleep (delay : Z)
| log_exception (msg : string).

(** Where [listen_for_user_stream] is suspended. The cleanup points carry
    the exception that is re-raised once the [finally] block is over. *)
Inductive pc : Type :=
| AtFactory
| AtConnect
| AtAuthSend
| AtFrameWait
| AtDisconnect (pending : option exn)
| AtSleep (pending : option exn)
| Stopped (e : exn).

(** What the event loop resumes the coroutine with. *)
Inductive response : Type :=
| Returned
| Assistant (h : handle)
| Message (data : list (string * json))
| Exhausted
| Raised (e : exn).

(** A resumption: the response, and the reading of [time.time()] from then
    until the next suspension. *)
Record input : Type := mkInput { resp : response; clock : Q }.

(** The attributes of the data source that the module reads or writes, the
    local [ws] of [listen_for_user_stream], and the contents of the
    [output] queue (an unbounded [asyncio.Queue]). *)
Record state : Type := mkState {
  at_pc : pc;
  ws : option handle;
  _ws_assistant : option handle;
  _last_ws_message_sent_timestamp : option Q;
  _last_recv_time : Q;
  output : list json
}.

Definition set_pc (p : pc) (st : state) : state :=
  mkState p (ws st) (_ws_assistant st) (_last_ws_message_sent_timestamp st)
    (_last_recv_time st) (output st).
Definition set_ws (h : handle) (st : state) : state :=
  mkState (at_pc st) (Some h) (_ws_assistant st) (_last_ws_message_sent_timestamp st)
    (_last_recv_time st) (output st).
Definition set_ws_assistant (h : handle) (st : state) : state :=
  mkState (at_pc st) (ws st) (Some h) (_last_ws_message_sent_timestamp st)
    (_last_recv_time st) (output st).
Definition set_last_sent (t : Q) (st : state) : state :=
  mkState (at_pc st) (ws st) (_ws_assistant st) (Some t)
    (_last_recv_time st) (output st).
Definition set_output (q : list json) (st : state) : state :=
  mkState (at_pc st) (ws st) (_ws_assistant st) (_last_ws_message_sent_timestamp st)
    (_last_recv_time st) q.

Definition LISTEN_KEY_KEEP_ALIVE_INTERVAL : Z := 1800.
Definition HEARTBEAT_TIME_INTERVAL : Q := 30.
Definition SPOT_STREAM_ID : Z := 21.

(** [ChangellyAPIUserStreamDataSource._convert_to_internal_order_format]:
    the body is [pass], so the call returns [None]. *)
Definition _convert_to_internal_order_format (order : json) : result json :=
  Ok JNull.

(** [ChangellyAPIUserStreamDataSource._convert_to_internal_balance_format] *)
Definition _convert_to_internal_balance_format (balance : json) : result json :=
  Ok JNull.

Section DataSource.

(** The constants of [changelly_constants], a module outside the two files. *)
Variable WSS_TRADING_URL : string.
Variable WS_HEARTBEAT_TIME_INTERVAL : Q.
Variable SPOT_SUBSCRIBE : string.

(** Constructor arguments. *)
Variable auth : ChangellyAuth.
Variable trading_pairs : list string.

(** The two conversion methods are looked up on [self]; the class defines
    them as the stubs above. *)
Variable convert_order : json -> result json.
Variable convert_balance : json -> result json.

(** Modelled from the spec: the constructor of the base class
    [UserStreamTrackerDataSource] is outside the two files; a data source
    starts with no transport handle. [__init__] sets [_last_recv_time]. *)
Definition init (output : list json) : state :=
  {| at_pc := AtFactory; ws := None; _ws_assistant := None;
     _last_ws_message_sent_timestamp := None; _last_recv_time := 0;
     output := output |}.

(** [last_recv_time] *)
Definition last_recv_time (st : state) : Q := _last_recv_time st.

(** The loop [for x in data: output_queue.put_nowait(convert(x))]: the
    result, and the queue as the loop leaves it. *)
Fixpoint put_each (convert : json -> result json) (items : list json)
    (output_queue : list json) : result unit * list json :=
  match items with
  | [] => (Ok tt, output_queue)
  | x :: rest =>
      match convert x with
      | Ok v => put_each convert rest (output_queue ++ [v])
      | Raise e => (Raise e, output_queue)
      end
  end.

Definition for_each (convert : json -> result json) (data : json)
    (output_queue : list json) : result unit * list json :=
  match py_iter data with
  | Some items => put_each convert items output_queue
  | None => (Raise (TypeError "object is not iterable"), output_queue)
  end.

(** [_handle_spot_order] *)
Definition _handle_spot_order (data : json) (output_queue : list json) :=
  for_each convert_order data output_queue.

(** [_handle_spot_balance] *)
Definition _handle_spot_balance (data : json) (output_queue : list json) :=
  for_each convert_balance data output_queue.

(** The body of the [async for] of [_process_ws_messages], for one message. *)
Definition process_message (data : list (string * json)) (output : list json)
    : result unit * list json :=
  match PyDict.get "method" data with
  | Some method =>
      match PyDict.get "params" data with
      | Some params =>
          if str_eq method "spot_order" || str_eq method "spot_orders"
          then _handle_spot_order params output
          else if str_eq method "spot_balance"
          then _handle_spot_balance params output
          else (Ok tt, output)
      | None => (Raise (KeyError "params"), output)
      end
  | None => (Ok tt, output)
  end.

(** The payloads that [_subscribe_channels] sends, one [ws.send] per
    trading pair, when no send fails. *)
Definition subscribe_payload : json :=
  JObj [ ("method", JStr SPOT_SUBSCRIBE); ("params", JObj []);
         ("id", JInt SPOT_STREAM_ID) ].

Definition _subscribe_channels (ws : handle) : list event :=
  map (fun trading_pair : string => send ws subscribe_payload) trading_pairs.

(** [_get_ws_assistant] followed by [ws.connect] (lines 64-65): the
    factory is awaited only while [_ws_assistant] is [None]. *)
Definition enter_cycle (st : state) : state * list event :=
  match _ws_assistant st with
  | None => (set_pc AtFactory st, [get_ws_assistant])
  | Some h => (set_pc AtConnect (set_ws h st), [connect h WSS_TRADING_URL])
  end.

(** One turn of the inner loop up to its suspension (lines 70-75). *)
Definition arm_wait (now : Q) (st : state) : option (state * list event) :=
  match ws st, _last_ws_message_sent_timestamp st with
  | Some h, Some last =>
      let seconds_until_next_ping := (WS_HEARTBEAT_TIME_INTERVAL - (now - last))%Q in
      Some (set_pc AtFrameWait st, [wait_for_messages h seconds_until_next_ping])
  | _, _ => None
  end.

(** The [finally] block (lines 83-86), entered with the exception that is
    still propagating, if any. *)
Definition finally (pending : option exn) (st : state) : state * list event :=
  match ws st with
  | Some h => (set_pc (AtDisconnect pending) st, [disconnect h])
  | None => (set_pc (AtSleep pending) st, [sleep 5])
  end.

Definition retry_message : string :=
  "Unexpected error while listening to user stream. Retrying after 5 seconds...".

(** The handlers of the outer [try] (lines 79-82), then the [finally] block. *)
Definition on_exception (e : exn) (st : state) : state * list event :=
  match e with
  | CancelledError => finally (Some e) st
  | _ =>
      if is_Exception e
      then
        let '(st', evs) := finally None st in
        (st', log_exception retry_message :: evs)
      else finally (Some e) st
  end.

(** An exception that leaves [asyncio.wait_for] (lines 76-78, else the
    outer handlers). *)
Definition on_wait_exception (e : exn) (now : Q) (st : state)
    : option (state * list event) :=
  match e with
  | TimeoutError =>
      let ping_time := now in
      arm_wait now (set_last_sent ping_time st)
  | _ => Some (on_exception e st)
  end.

(** Resuming [listen_for_user_stream] at its suspension point, up to the
    next one. [None]: the point cannot be resumed that way. *)
Definition step (st : state) (i : input) : option (state * list event) :=
  match at_pc st, resp i with
  | AtFactory, Assistant h =>
      Some (set_pc AtConnect (set_ws h (set_ws_assistant h st)),
            [connect h WSS_TRADING_URL])
  | AtConnect, Returned =>
      match ws st with
      | Some h =>
          Some (set_pc AtAuthSend st, [send h (ws_authenticate auth (clock i))])
      | None => None
      end
  | AtAuthSend, Returned =>
      arm_wait (clock i) (set_last_sent (clock i) st)
  | AtFrameWait, Message data =>
      match process_message data (output st) with
      | (Ok _, q) => Some (set_output q st, [])
      | (Raise e, q) => on_wait_exception e (clock i) (set_output q st)
      end
  | AtFrameWait, Exhausted => arm_wait (clock i) st
  | AtFrameWait, Raised e => on_wait_exception e (clock i) st
  | (AtFactory | AtConnect | AtAuthSend), Raised e => Some (on_exception e st)
  | AtDisconnect pending, Returned => Some (set_pc (AtSleep pending) st, [sleep 5])
  | AtSleep (Some e), Returned => Some (set_pc (Stopped e) st, [])
  | AtSleep None, Returned => Some (enter_cycle st)
  | (AtDisconnect _ | AtSleep _), Raised e => Some (set_pc (Stopped e) st, [])
  | _, _ => None
  end.

Fixpoint run (st : state) (inputs : list input) : option (state * list event) :=
  match inputs with
  | [] => Some (st, [])
  | i :: rest =>
      match step st i with
      | Some (st1, evs1) =>
          match run st1 rest with
          | Some (st2, evs2) => Some (st2, evs1 ++ evs2)
          | None => None
          end
      | None => None
      end
  end.

(** [listen_for_user_stream(output)] resumed with [inputs]: the state it
    reaches and the calls it has made. *)
Definition listen_for_user_stream (output : list json) (inputs : list input)
    : option (state * list event) :=
  let '(st0, evs0) := enter_cycle (init output) in
  match run st0 inputs with
  | Some (st, evs) => Some (st, evs0 ++ evs)
  | None => None
  end.

End DataSource.

(* ===================================================================== *)
(** * The signer as the specification words it                             *)
(* ===================================================================== *)

Module SignerSpec.

(** Method name, path, ["?"] and the query when there is one, the body
    when there is one, the timestamp: concatenated, nothing in between. *)
Definition canonical_message
    (method_name path query : string) (body : option string) (timestamp : string)
    : string :=
  method_name +:+ path
    +:+ (if Py.truthy query then "?" +:+ query else "")
    +:+ (match body with Some b => b | None => "" end)
    +:+ timestamp.

(** ["HS256 " + base64(api_key + ":" + digest + ":" + timestamp)] *)
Definition header_value (api_key digest timestamp : string) : string :=
  "HS256 " +:+ Base64.b64encode (api_key +:+ ":" +:+ digest +:+ ":" +:+ timestamp).

(** The login payload of the stream handshake. *)
Definition login_payload (api_key : string) (timestamp window : Z) (signature : string)
    : json :=
  JObj [ ("method", JStr "login");
         ("params", JObj [ ("type", JStr "HS256");
                           ("api_key", JStr api_key);
                           ("timestamp", JInt timestamp);
                           ("window", JInt window);
                           ("signature", JStr signature) ]) ].

Definition lower_hex_char (a : ascii) : bool :=
  let c := Base64.code a in
  ((48 <=? c) && (c <=? 57)) || ((97 <=? c) && (c <=? 102)).

Fixpoint lower_hex (s : string) : bool :=
  match s with
  | EmptyString => true
  | String a rest => lower_hex_char a && lower_hex rest
  end.

End SignerSpec.

(* ===================================================================== *)
(** * Predicates on frames, states and calls                                *)
(* ===================================================================== *)

(** [vs] are the results of [convert] on [items], element by element. *)
Definition converted (convert : json -> result json) (items vs : list json) : Prop :=
  Forall2 (fun x v => convert x = Ok v) items vs.

(** The conversion that the router applies to the elements of a frame
    with the given method value. *)
Definition dispatched (convert_order convert_balance : json -> result json)
    (method : json) (convert : json -> result json) : Prop :=
  ((method = JStr "spot_order" \/ method = JStr "spot_orders") /\ convert = convert_order)
  \/ (method = JStr "spot_balance" /\ convert = convert_balance).

(** The suspension points inside the [try] statement of the supervisor:
    obtaining the handle, connect, authenticate-send, and the wait for
    frames under the heartbeat deadline. *)
Definition in_try (p : pc) : bool :=
  match p with
  | AtFactory | AtConnect | AtAuthSend | AtFrameWait => true
  | _ => false
  end.




(** A resumption that is no cancellation (nor another exception outside
    [Exception]) and that does not make the cleanup itself fail. *)
Definition benign (p : pc) (r : response) : bool :=
  match r with
  | Raised e => in_try p && is_Exception e
  | _ => true
  end.

(** The handles on which [connect] is called, in order: one per
    connection cycle that gets that far. *)
Definition connected (evs : list event) : list handle :=
  flat_map (fun ev => match ev with connect h _ => [h] | _ => [] end) evs.



(** The payloads sent, in order. *)
Definition sent (evs : list event) : list json :=
  flat_map (fun ev => match ev with send _ payload => [payload] | _ => [] end) evs.

(** The calls that close a handle or delay a reconnection. *)
Definition is_cleanup_call (ev : event) : bool :=
  match ev with
  | disconnect _ | sleep _ | log_exception _ => true
  | _ => false
  end.


(** Sample values: the credentials of the end-to-end scenario of the
    specification, a stream URL, the 30-second heartbeat interval, the
    subscribe method name, and frames. *)
Module Scenario.

Definition url : string := "wss://api.pro.changelly.com/api/3/ws/trading".
Definition heartbeat : Q := 30.
Definition spot_subscribe : string := "spot_subscribe".
Definition credentials : ChangellyAuth := ChangellyAuth_init "k1" "s1".

Definition unknown_method : list (string * json) := [("method", JStr "unknown")].

Definition two_orders : list (string * json) :=
  [("method", JStr "spot_orders"); ("params", JList [JStr "A"; JStr "B"])].

(** Suspended in the frame loop on handle 7, nothing pushed yet. *)
Definition in_frame_loop : state :=
  {| at_pc := AtFrameWait; ws := Some 7%nat; _ws_assistant := Some 7%nat;
     _last_ws_message_sent_timestamp := Some 3%Q; _last_recv_time := 0;
     output := [] |}.

(** Suspended in [connect] on handle 7. *)
Definition in_connect : state :=
  {| at_pc := AtConnect; ws := Some 7%nat; _ws_assistant := Some 7%nat;
     _last_ws_message_sent_timestamp := None; _last_recv_time := 0;
     output := [] |}.

(** The factory returns handle 7, then the first [connect] fails and the
    cleanup completes. *)
Definition one_failed_cycle : list input :=
  [ mkInput (Assistant 7%nat) 0; mkInput (Raised (Error "ConnectionError")) 1;
    mkInput Returned 1; mkInput Returned 6 ].

(** The factory returns handle 7, connect and the login send succeed. *)
Definition handshake : list input :=
  [ mkInput (Assistant 7%nat) 0; mkInput Returned 1; mkInput Returned 2 ].

End Scenario.

Section Runs.

Variable WSS_TRADING_URL : string.
Variable WS_HEARTBEAT_TIME_INTERVAL : Q.
Variable auth : ChangellyAuth.
Variables convert_order convert_balance : json -> result json.

(** Every resumption of the run is benign at the point it resumes. *)
Fixpoint undisturbed (st : state) (inputs : list input) : Prop :=
  match inputs with
  | [] => True
  | i :: rest =>
      benign (at_pc st) (resp i) = true
      /\ match step WSS_TRADING_URL WS_HEARTBEAT_TIME_INTERVAL auth
                 convert_order convert_balance st i with
         | Some (st', _) => undisturbed st' rest
         | None => True
         end
  end.


End Runs.

(* ===================================================================== *)
(** * The other coroutines of the data source                               *)
(* ===================================================================== *)

(** How a coroutine call stands after the resumptions it was given:
    suspended at an await, returned, or left by an exception. *)
Inductive outcome (A : Type) : Type :=
| Pending
| Done (a : A)
| Failed (e : exn).
Arguments Pending {A}.
Arguments Done {A} a.
Arguments Failed {A} e.

(** [trading_pairs or []] of [__init__], for an optional list. *)
Definition trading_pairs_or_empty (trading_pairs : option (list string)) : list string :=
  match trading_pairs with
  | Some (p :: ps) => p :: ps
  | Some [] | None => []
  end.

Section Coroutines.

Variable WSS_TRADING_URL : string.
Variable SPOT_SUBSCRIBE : string.
Variable auth : ChangellyAuth.

(** [ws.connect] then [_authenticate_connection(ws)] (lines 43-45), on the
    handle [h]: the calls made, and how the coroutine stands. [None]: the
    resumptions do not fit the awaits. *)
Definition connect_and_login (h : handle) (inputs : list input)
    : option (list event * outcome handle) :=
  match inputs with
  | [] => Some ([connect h WSS_TRADING_URL], Pending)
  | i1 :: rest =>
      match resp i1, rest with
      | Returned, [] =>
          Some ([connect h WSS_TRADING_URL; send h (ws_authenticate auth (clock i1))],
                Pending)
      | Returned, [i2] =>
          match resp i2 with
          | Returned =>
              Some ([connect h WSS_TRADING_URL; send h (ws_authenticate auth (clock i1))],
                    Done h)
          | Raised e =>
              Some ([connect h WSS_TRADING_URL; send h (ws_authenticate auth (clock i1))],
                    Failed e)
          | _ => None
          end
      | Raised e, [] => Some ([connect h WSS_TRADING_URL], Failed e)
      | _, _ => None
      end
  end.

(** [_connected_websocket_assistant], started with the attribute
    [_ws_assistant] as given: the attribute afterwards, the calls made,
    and how the coroutine stands. *)
Definition _connected_websocket_assistant
    (ws_assistant : option handle) (inputs : list input)
    : option (option handle * list event * outcome handle) :=
  match ws_assistant with
  | Some h =>
      match connect_and_login h inputs with
      | Some (evs, o) => Some (Some h, evs, o)
      | None => None
      end
  | None =>
      match inputs with
      | [] => Some (None, [get_ws_assistant], Pending)
      | i0 :: rest =>
          match resp i0 with
          | Assistant h =>
              match connect_and_login h rest with
              | Some (evs, o) => Some (Some h, get_ws_assistant :: evs, o)
              | None => None
              end
          | Raised e =>
              match rest with
              | [] => Some (None, [get_ws_assistant], Failed e)
              | _ => None
              end
          | _ => None
          end
      end
  end.

(** [_subscribe_channels(ws)] with its awaits: one [ws.send] per trading
    pair, each resumed by one input; a send that raises ends the loop. *)
Fixpoint subscribe_channels_run (ws : handle) (trading_pairs : list string)
    (inputs : list input) : option (list event * outcome unit) :=
  match trading_pairs with
  | [] =>
      match inputs with
      | [] => Some ([], Done tt)
      | _ => None
      end
  | trading_pair :: rest =>
      match inputs with
      | [] => Some ([send ws (subscribe_payload SPOT_SUBSCRIBE)], Pending)
      | i :: more =>
          match resp i with
          | Returned =>
              match subscribe_channels_run ws rest more with
              | Some (evs, o) => Some (send ws (subscribe_payload SPOT_SUBSCRIBE) :: evs, o)
              | None => None
              end
          | Raised e =>
              match more with
              | [] => Some ([send ws (subscribe_payload SPOT_SUBSCRIBE)], Failed e)
              | _ => None
              end
          | _ => None
          end
      end
  end.

End Coroutines.

(** ** Predicates on resumptions and calls *)

(** The message iterator ends, or the heartbeat deadline expires. *)
Definition quiet (i : input) : bool :=
  match resp i with
  | Exhausted | Raised TimeoutError => true
  | _ => false
  end.

(** The handle a call is made on, if any. *)
Definition handle_of (ev : event) : option handle :=
  match ev with
  | connect h _ | send h _ | wait_for_messages h _ | disconnect h => Some h
  | get_ws_assistant | sleep _ | log_exception _ => None
  end.

Definition is_disconnect (ev : event) : bool :=
  match ev with
  | disconnect _ => true
  | _ => false
  end.

(** In a list of calls, every [disconnect] that is not the last call is
    directly followed by [sleep 5], and every [sleep] lasts 5 seconds. *)
Fixpoint closes_then_sleeps (evs : list event) : Prop :=
  match evs with
  | [] => True
  | disconnect _ :: rest =>
      match rest with
      | [] => True
      | next :: _ => next = sleep 5 /\ closes_then_sleeps rest
      end
  | sleep d :: rest => d = 5 /\ closes_then_sleeps rest
  | _ :: rest => closes_then_sleeps rest
  end.

(** The handles in use were connected, and logins do not outnumber connects. *)
Definition calls_follow_connect (st : state) (evs : list event) : Prop :=
  (forall h, ws st = Some h -> In h (connected evs))
  /\ (forall ev h, In ev evs -> handle_of ev = Some h -> In h (connected evs))
  /\ (length (sent evs) <= length (connected evs))%nat
  /\ (at_pc st = AtConnect -> (length (sent evs) < length (connected evs))%nat).

(** The last call of the list is a [disconnect]. *)
Fixpoint ends_with_disconnect (evs : list event) : bool :=
  match evs with
  | [] => false
  | [ev] => is_disconnect ev
  | _ :: rest => ends_with_disconnect rest
  end.

(** The calls so far keep the order close-then-sleep, and a pending
    [disconnect] is the call the supervisor is suspended in (or it has
    stopped there). *)
Definition closing (st : state) (evs : list event) : Prop :=
  closes_then_sleeps evs
  /\ (ends_with_disconnect evs = true ->
      match at_pc st with
      | AtDisconnect _ | Stopped _ => True
      | _ => False
      end).

(** What the supervisor calls after the first [get_ws_assistant] while the
    factory fails [n] times. *)
Definition factory_retry_calls (n : nat) : list event :=
  concat (repeat [log_exception retry_message; sleep 5; get_ws_assistant] n).

(** A factory that fails once per clock reading, the 5-second sleep
    returning each time. *)
Definition failing_factory (e : exn) (clocks : list Q) : list input :=
  flat_map (fun t => [mkInput (Raised e) t; mkInput Returned t]) clocks.

(** More sample values. *)
Module Samples.

(** A split that takes the whole URL as the path. *)
Definition path_only (u : string) : SplitResult := mkSplitResult "" "" u "" "".

Definition post_order : RESTRequest :=
  mkRESTRequest POST "/api/3/spot/order" (Some "{}")
    (Some {[ "Content-Type" := "application/json"; "Authorization" := "stale" ]}).

Definition path_and_body : RESTRequest := mkRESTRequest POST "/a" (Some "b") None.

Definition longer_path : RESTRequest := mkRESTRequest POST "/ab" None None.

Definition null_params : list (string * json) :=
  [("method", JStr "spot_balance"); ("params", JNull)].

Definition stream_ends : list input :=
  [ mkInput Exhausted 10; mkInput (Raised TimeoutError) 33; mkInput Exhausted 34 ].

Definition frame_then_error : list input :=
  [ mkInput (Message Scenario.two_orders) 4;
    mkInput (Raised (Error "ConnectionError")) 5 ].

End Samples.

(** The request with another body. *)
Definition with_data (request : RESTRequest) (data : option string) : RESTRequest :=
  {| method := method request; url := url request; data := data;
     headers := headers request |}.

(** The part of the signed message that comes from the request. *)
Definition signed_fields (method_name path query : string) (body : option string)
    : string :=
  method_name +:+ path
    +:+ (if Py.truthy query then "?" +:+ query else "")
    +:+ (match body with Some b => b | None => "" end).

(* ===================================================================== *)
(** * Properties of the library functions                                   *)
(* ===================================================================== *)

Lemma append_cons (x : ascii) (a b : string) : String x a +:+ b = String x (a +:+ b).
Proof. reflexivity. Qed.

Lemma append_empty_l (b : string) : "" +:+ b = b.
Proof. reflexivity. Qed.

Lemma append_assoc (a b c : string) : (a +:+ b) +:+ c = a +:+ (b +:+ c).
Proof.
  induction a as [|x a IH]; [reflexivity |].
  now rewrite !append_cons, IH.
Qed.

Lemma append_empty_r (a : string) : a +:+ "" = a.
Proof.
  induction a as [|x a IH]; [reflexivity |].
  now rewrite append_cons, IH.
Qed.

Lemma join_empty_cons (p : string) (l : list string) :
  Py.join "" (p :: l) = p +:+ Py.join "" l.
Proof. destruct l; [apply eq_sym, append_empty_r | reflexivity]. Qed.

Lemma join_empty_app (l1 l2 : list string) :
  Py.join "" (l1 ++ l2) = Py.join "" l1 +:+ Py.join "" l2.
Proof.
  induction l1 as [|p l1 IH]; [reflexivity |].
  rewrite <- app_comm_cons, !join_empty_cons, IH. now rewrite append_assoc.
Qed.

Lemma hex_digit_lower (n : Z) : SignerSpec.lower_hex_char (Hex.digit n) = true.
Proof.
  unfold Hex.digit.
  assert (Hlt : (Z.to_nat (n mod 16) < 16)%nat)
    by (pose proof (Z.mod_pos_bound n 16); lia).
  generalize dependent (Z.to_nat (n mod 16)). intros k Hlt.
  do 16 (destruct k as [|k]; [reflexivity |]). lia.
Qed.

Lemma hex_lower (bs : list Z) : SignerSpec.lower_hex (Hex.hex bs) = true.
Proof.
  induction bs as [|b bs IH]; [reflexivity |].
  simpl. now rewrite !hex_digit_lower, IH.
Qed.

Lemma hex_length (bs : list Z) : String.length (Hex.hex bs) = (2 * length bs)%nat.
Proof. induction bs as [|b bs IH]; simpl; [reflexivity | rewrite IH; lia]. Qed.

Lemma be_bytes_length (n : nat) (x : Z) : length (SHA256.be_bytes n x) = n.
Proof. induction n as [|n IH]; simpl; [reflexivity | now rewrite IH]. Qed.

Lemma blocks_length (fuel : nat) (h ws : list Z) :
  length h = 8%nat -> length (SHA256.blocks fuel h ws) = 8%nat.
Proof.
  revert h ws. induction fuel as [|fuel IH]; intros h ws Hh; simpl; [exact Hh |].
  destruct ws as [|w ws]; [exact Hh |]. apply IH. reflexivity.
Qed.

Lemma digest_length (msg : list Z) : length (SHA256.digest msg) = 32%nat.
Proof.
  unfold SHA256.digest.
  rewrite (flat_map_constant_length (c := 4%nat)).
  - rewrite blocks_length; reflexivity.
  - intros x _. apply be_bytes_length.
Qed.

Lemma hexdigest_lower (key msg : string) :
  SignerSpec.lower_hex (HMAC.hexdigest key msg) = true.
Proof. apply hex_lower. Qed.

Lemma hexdigest_length (key msg : string) :
  String.length (HMAC.hexdigest key msg) = 64%nat.
Proof.
  unfold HMAC.hexdigest, HMAC.hmac_sha256. now rewrite hex_length, digest_length.
Qed.

(** Test vectors: FIPS 180-4 ("abc"), RFC 4231 (test case 2), RFC 4648. *)
Example sha256_abc :
  Hex.hex (SHA256.digest (Py.bytes_of "abc"))
  = "ba7816bf8f01cfea414140de5dae2223b00361a396177a9cb410ff61f20015ad".
Proof. vm_compute. reflexivity. Qed.

Example hmac_rfc4231_2 :
  HMAC.hexdigest "Jefe" "what do ya want for nothing?"
  = "5bdcc146bf60754e6a042426089575c75a003f089d2739839dec58b964ec3843".
Proof. vm_compute. reflexivity. Qed.

(** The timestamp follows the rounding of the float product: the first
    reading is the double 1708470054.261, whose exact product with 1000
    lies below 1708470054261 and rounds up to it. *)
Example timestamp_ms_values :
  map Py.timestamp_ms
    [ 7165842782467129 # 4194304; 1708470054.261; 1700000000.1239; 1; 0; - (3 # 2) ]%Q
  = [ 1708470054261; 1708470054261; 1700000000123; 1000; 0; -1500 ].
Proof. vm_compute. reflexivity. Qed.

Example b64_rfc4648 :
  map Base64.b64encode ["f"; "fo"; "foo"; "foob"; "fooba"; "foobar"]
  = ["Zg=="; "Zm8="; "Zm9v"; "Zm9vYg=="; "Zm9vYmE="; "Zm9vYmFy"].
Proof. vm_compute. reflexivity. Qed.

(* ===================================================================== *)
(** * The signer                                                            *)
(* ===================================================================== *)

Section RestSignerFacts.

Variable urlsplit : string -> SplitResult.

Lemma signed_message (request : RESTRequest) (timestamp : string) :
  let parts := urlsplit (url request) in
  let message := [RESTMethod_str (method request); path parts] in
  let message :=
    if Py.truthy (query parts) then (message ++ ["?"]) ++ [query parts] else message in
  let message :=
    match data request with
    | Some body => if Py.truthy body then message ++ [body] else message
    | None => message
    end in
  Py.join "" (message ++ [timestamp])
  = SignerSpec.canonical_message (RESTMethod_str (method request)) (path parts)
      (query parts) (data request) timestamp.
Proof.
  cbv zeta. unfold SignerSpec.canonical_message.
  set (m := RESTMethod_str (method request)).
  set (parts := urlsplit (url request)).
  destruct (Py.truthy (query parts)) eqn:Hq;
    destruct (data request) as [body|]; try destruct (Py.truthy body) eqn:Hb;
    rewrite ?join_empty_app; simpl; rewrite ?append_assoc, ?append_empty_r;
    try reflexivity.
  all: destruct body; [reflexivity | discriminate].
Qed.

(** C1. The Authorization header of a REST request is
    "HS256 " + base64(api_key + ":" + digest + ":" + timestamp), the digest
    being the 64-digit lowercase hexadecimal HMAC-SHA256, under the secret
    key, of method name, path, "?" and query (when the query is not empty),
    body (when there is one) and the millisecond timestamp of the call,
    concatenated in that order; [rest_authenticate] attaches that header.
    The timestamp is int(time.time() * 1000), the product being the
    binary64 product of the clock reading and 1000. *)
Theorem header_for_authentication_value
    (self : ChangellyAuth) (request : RESTRequest) (time_time : Q) :
  let parts := urlsplit (url request) in
  let timestamp := Py.str_int (Py.timestamp_ms time_time) in
  let digest :=
    HMAC.hexdigest (secret_key self)
      (SignerSpec.canonical_message (RESTMethod_str (method request))
         (path parts) (query parts) (data request) timestamp) in
  header_for_authentication urlsplit self request time_time
    = {[ "Authorization" := SignerSpec.header_value (api_key self) digest timestamp ]}
  /\ (exists h : gmap string string,
        headers (rest_authenticate urlsplit self request time_time) = Some h
        /\ h !! "Authorization"
           = Some (SignerSpec.header_value (api_key self) digest timestamp))
  /\ SignerSpec.lower_hex digest = true
  /\ String.length digest = 64%nat.
Proof.
  cbv zeta.
  assert (Hh : header_for_authentication urlsplit self request time_time
    = {[ "Authorization" :=
         SignerSpec.header_value (api_key self)
           (HMAC.hexdigest (secret_key self)
              (SignerSpec.canonical_message (RESTMethod_str (method request))
                 (path (urlsplit (url request))) (query (urlsplit (url request)))
                 (data request) (Py.str_int (Py.timestamp_ms time_time))))
           (Py.str_int (Py.timestamp_ms time_time)) ]}).
  { unfold header_for_authentication, _generate_signature. cbv zeta.
    rewrite signed_message. reflexivity. }
  split; [exact Hh |]. split.
  - unfold rest_authenticate. simpl. eexists. split; [reflexivity |].
    rewrite Hh. apply lookup_union_Some_l. apply lookup_singleton_eq.
  - split; [apply hexdigest_lower | apply hexdigest_length].
Qed.

End RestSignerFacts.

(** C2. The login payload is {"method": "login", "params": {"type": "HS256",
    "api_key": the credential's key, "timestamp": the millisecond timestamp
    of the call, "window": 10000, "signature": s}}, where s is the 64-digit
    lowercase hexadecimal HMAC-SHA256, under the secret key, of the decimal
    timestamp immediately followed by the decimal window. The timestamp is
    int(time.time() * 1e3), the product being the binary64 product of the
    clock reading and 1000. *)
Theorem ws_authenticate_payload (self : ChangellyAuth) (time_time : Q) :
  let timestamp := Py.timestamp_ms time_time in
  let signature :=
    HMAC.hexdigest (secret_key self) (Py.str_int timestamp +:+ Py.str_int 10000) in
  ws_authenticate self time_time
    = SignerSpec.login_payload (api_key self) timestamp 10000 signature
  /\ SignerSpec.lower_hex signature = true
  /\ String.length signature = 64%nat.
Proof.
  cbv zeta. split; [reflexivity |].
  split; [apply hexdigest_lower | apply hexdigest_length].
Qed.

Example ws_authenticate_k1_s1 :
  ws_authenticate (ChangellyAuth_init "k1" "s1") 1700000000.1239
  = SignerSpec.login_payload "k1" 1700000000123 10000
      "35cec1f0b1dfbcdc177a05fa6e8e1809554554acc2046f7b1d5cd2dee8d860f7".
Proof. vm_compute. reflexivity. Qed.

Example header_k1_s1 :
  header_for_authentication
    (fun _ => mkSplitResult "https" "api.pro.changelly.com" "/api/3/spot/order"
                "symbol=BTCUSDT" "")
    (ChangellyAuth_init "k1" "s1")
    (mkRESTRequest GET "https://api.pro.changelly.com/api/3/spot/order?symbol=BTCUSDT"
       None None)
    1700000000.1239
  !! "Authorization"
  = Some "HS256 azE6NDk1MWQ4M2EyYzlmN2YzODk3YTdiYWJlMDM0MDNjY2IzMjUyM2FkNzY0YTNhNzUzYzQxMjFmYmRjYWE4MTVjYjoxNzAwMDAwMDAwMTIz".
Proof. vm_compute. reflexivity. Qed.

(* ===================================================================== *)
(** * The message router                                                    *)
(* ===================================================================== *)


Section RouterFacts.

Variable convert : json -> result json.

Lemma converted_length (items vs : list json) :
  converted convert items vs -> length vs = length items.
Proof. intros H. symmetry. exact (Forall2_length _ _ _ H). Qed.

Lemma put_each_all (items vs q : list json) :
  converted convert items vs -> put_each convert items q = (Ok tt, q ++ vs).
Proof.
  intros H. revert q.
  induction H as [|x v items vs Hx _ IH]; intros q; simpl.
  - now rewrite app_nil_r.
  - rewrite Hx, IH, <- app_assoc. reflexivity.
Qed.

Lemma put_each_stops (pre post vs q : list json) (x : json) (e : exn) :
  converted convert pre vs -> convert x = Raise e ->
  put_each convert (pre ++ x :: post) q = (Raise e, q ++ vs).
Proof.
  intros H Hx. revert q.
  induction H as [|y v pre vs Hy _ IH]; intros q; simpl.
  - now rewrite Hx, app_nil_r.
  - rewrite Hy, IH, <- app_assoc. reflexivity.
Qed.

End RouterFacts.

Lemma converted_stub (items : list json) :
  converted (fun _ => Ok JNull) items (map (fun _ => JNull) items).
Proof. induction items; constructor; [reflexivity | assumption]. Qed.

Section ProcessMessageFacts.

Variables convert_order convert_balance : json -> result json.

Local Abbreviation process_message := (process_message convert_order convert_balance).

Lemma process_message_dispatch
    (data : list (string * json)) (method params : json)
    (convert : json -> result json) (q : list json) :
  PyDict.get "method" data = Some method ->
  PyDict.get "params" data = Some params ->
  dispatched convert_order convert_balance method convert ->
  process_message data q = for_each convert params q.
Proof.
  intros Hm Hp Hd. unfold process_message. rewrite Hm, Hp.
  destruct Hd as [[[-> | ->] ->] | [-> ->]]; reflexivity.
Qed.

(** A handled frame whose params list has n elements: n pushes, one per
    element, in the order of the list. *)
Lemma process_message_handled
    (data : list (string * json)) (method : json) (items vs : list json)
    (convert : json -> result json) (q : list json) :
  PyDict.get "method" data = Some method ->
  PyDict.get "params" data = Some (JList items) ->
  dispatched convert_order convert_balance method convert ->
  converted convert items vs ->
  process_message data q = (Ok tt, q ++ vs) /\ length vs = length items.
Proof.
  intros Hm Hp Hd Hc. split.
  - rewrite (process_message_dispatch data method (JList items) convert q Hm Hp Hd).
    unfold for_each. simpl. now apply put_each_all.
  - now apply converted_length with convert.
Qed.

(** A frame without a method field: nothing is pushed, nothing is raised. *)
Lemma process_message_no_method (data : list (string * json)) (q : list json) :
  PyDict.get "method" data = None -> process_message data q = (Ok tt, q).
Proof. intros Hm. unfold process_message. now rewrite Hm. Qed.

(** A frame with another method value and a params field: the same. *)
Lemma process_message_other_method
    (data : list (string * json)) (method params : json) (q : list json) :
  PyDict.get "method" data = Some method ->
  PyDict.get "params" data = Some params ->
  str_eq method "spot_order" = false ->
  str_eq method "spot_orders" = false ->
  str_eq method "spot_balance" = false ->
  process_message data q = (Ok tt, q).
Proof.
  intros Hm Hp H1 H2 H3. unfold process_message.
  now rewrite Hm, Hp, H1, H2, H3.
Qed.

(** A frame with a method field and no params field: [data["params"]]
    raises before the method value is looked at. *)
Lemma process_message_no_params
    (data : list (string * json)) (method : json) (q : list json) :
  PyDict.get "method" data = Some method ->
  PyDict.get "params" data = None ->
  process_message data q = (Raise (KeyError "params"), q).
Proof. intros Hm Hp. unfold process_message. now rewrite Hm, Hp. Qed.

End ProcessMessageFacts.

(* ===================================================================== *)
(** * The supervisor                                                        *)
(* ===================================================================== *)

(** Case analysis on one resumption of the coroutine. *)
Ltac step_cases H :=
  unfold step, on_wait_exception, on_exception, arm_wait, finally, enter_cycle in H;
  repeat case_match; simplify_eq.

Section SupervisorFacts.

Variable WSS_TRADING_URL : string.
Variable WS_HEARTBEAT_TIME_INTERVAL : Q.
Variable auth : ChangellyAuth.
Variables convert_order convert_balance : json -> result json.

Local Abbreviation step_ :=
  (step WSS_TRADING_URL WS_HEARTBEAT_TIME_INTERVAL auth convert_order convert_balance).
Local Abbreviation run_ :=
  (run WSS_TRADING_URL WS_HEARTBEAT_TIME_INTERVAL auth convert_order convert_balance).
Local Abbreviation listen_ :=
  (listen_for_user_stream WSS_TRADING_URL WS_HEARTBEAT_TIME_INTERVAL auth
     convert_order convert_balance).
Local Abbreviation enter_ := (enter_cycle WSS_TRADING_URL).
Local Abbreviation undisturbed_ :=
  (undisturbed WSS_TRADING_URL WS_HEARTBEAT_TIME_INTERVAL auth convert_order convert_balance).

Lemma run_app (st : state) (l1 l2 : list input) :
  run_ st (l1 ++ l2)
  = match run_ st l1 with
    | Some (st1, evs1) =>
        match run_ st1 l2 with
        | Some (st2, evs2) => Some (st2, evs1 ++ evs2)
        | None => None
        end
    | None => None
    end.
Proof.
  revert st. induction l1 as [|i l1 IH]; intros st; simpl.
  - destruct (run_ st l2) as [[st2 evs2]|]; reflexivity.
  - destruct (step_ st i) as [[st1 evs1]|]; [| reflexivity].
    rewrite IH. destruct (run_ st1 l1) as [[st1' evs1']|]; [| reflexivity].
    destruct (run_ st1' l2) as [[st2 evs2]|]; [| reflexivity].
    now rewrite app_assoc.
Qed.

(** An invariant of single resumptions is an invariant of runs. *)
Lemma run_invariant (P : state -> list event -> Prop) :
  (forall st evs i st' evs',
      P st evs -> step_ st i = Some (st', evs') -> P st' (evs ++ evs')) ->
  forall inputs st evs st' evs',
    P st evs -> run_ st inputs = Some (st', evs') -> P st' (evs ++ evs').
Proof.
  intros Hstep. induction inputs as [|i inputs IH]; intros st evs st' evs' HP Hrun.
  - simpl in Hrun. simplify_eq. now rewrite app_nil_r.
  - simpl in Hrun.
    destruct (step_ st i) as [[st1 evs1]|] eqn:Hs; [| discriminate].
    destruct (run_ st1 inputs) as [[st2 evs2]|] eqn:Hr; [| discriminate].
    simplify_eq. rewrite app_assoc. eapply IH; [| exact Hr].
    eapply Hstep; eassumption.
Qed.

Lemma listen_invariant (P : state -> list event -> Prop) :
  (forall st evs i st' evs',
      P st evs -> step_ st i = Some (st', evs') -> P st' (evs ++ evs')) ->
  forall q inputs st evs,
    P (fst (enter_ (init q))) (snd (enter_ (init q))) ->
    listen_ q inputs = Some (st, evs) -> P st evs.
Proof.
  intros Hstep q inputs st evs H0 Hl. unfold listen_for_user_stream in Hl.
  destruct (enter_ (init q)) as [st0 evs0] eqn:He. simpl in H0.
  destruct (run_ st0 inputs) as [[st1 evs1]|] eqn:Hr; [| discriminate].
  simplify_eq. eapply run_invariant; eassumption.
Qed.

(** ** Errors of the loop steps *)






(** ** The loop goes on *)



Section Liveness.

(** The conversions fail with errors only (the stubs of the class never fail). *)
Hypothesis convert_order_errors :
  forall x e, convert_order x = Raise e -> is_Exception e = true.
Hypothesis convert_balance_errors :
  forall x e, convert_balance x = Raise e -> is_Exception e = true.





End Liveness.

(** ** A transport that fails every [connect] *)




(** ** Cancellation *)

(** C4 (the code at a cancellation delivered inside the [try] statement,
    the handle being set). The cancellation is not logged by the reconnect
    handler, the handle is closed and [CancelledError] reaches the caller;
    but the [finally] block also awaits the 5-second reconnect delay, so
    the supervisor returns only after that sleep. *)
Theorem cancellation_runs_reconnect_delay (st : state) (h : handle) (t1 t2 t3 : Q) :
  in_try (at_pc st) = true -> ws st = Some h ->
  step_ st (mkInput (Raised CancelledError) t1)
    = Some (set_pc (AtDisconnect (Some CancelledError)) st, [disconnect h])
  /\ run_ st [mkInput (Raised CancelledError) t1; mkInput Returned t2]
     = Some (set_pc (AtSleep (Some CancelledError)) st, [disconnect h; sleep 5])
  /\ run_ st [mkInput (Raised CancelledError) t1; mkInput Returned t2;
              mkInput Returned t3]
     = Some (set_pc (Stopped CancelledError) st, [disconnect h; sleep 5]).
Proof.
  intros Hpc Hws. destruct st as [p w f l r q]. simpl in Hpc, Hws. subst w.
  destruct p; try discriminate Hpc; repeat split; reflexivity.
Qed.

(** ** Heartbeat *)

(** C8. When the heartbeat deadline expires in the frame loop, the
    supervisor records the current time as the last outbound activity and
    waits for frames again, with the full interval: it calls neither
    disconnect nor sleep, logs nothing, leaves the handle and the output
    queue as they are, and processes the next frame as it would have. *)
Theorem heartbeat_expiry_stays_in_loop (st : state) (h : handle) (t : Q) :
  at_pc st = AtFrameWait -> ws st = Some h ->
  exists st',
    step_ st (mkInput (Raised TimeoutError) t)
    = Some (st', [wait_for_messages h (WS_HEARTBEAT_TIME_INTERVAL - (t - t))%Q])
    /\ (WS_HEARTBEAT_TIME_INTERVAL - (t - t) == WS_HEARTBEAT_TIME_INTERVAL)%Q
    /\ _last_ws_message_sent_timestamp st' = Some t
    /\ at_pc st' = AtFrameWait
    /\ ws st' = Some h
    /\ _ws_assistant st' = _ws_assistant st
    /\ output st' = output st
    /\ (forall data q t',
          process_message convert_order convert_balance data (output st) = (Ok tt, q) ->
          step_ st' (mkInput (Message data) t') = Some (set_output q st', [])).
Proof.
  intros Hpc Hws. destruct st as [p w f l r q]. simpl in Hpc, Hws. subst p w.
  eexists. split; [reflexivity |].
  split; [ring |]. repeat (split; [reflexivity |]).
  intros data q' t' Hp. unfold step. simpl in *. now rewrite Hp.
Qed.

(** ** The transport handle *)





(** ** The last-receive timestamp *)

Lemma step_last_recv_time (st : state) (i : input) (st' : state) (evs : list event) :
  step_ st i = Some (st', evs) -> _last_recv_time st' = _last_recv_time st.
Proof.
  intros Hs. destruct st as [p w f l r q], i as [rs t]; simpl in *.
  step_cases Hs; reflexivity.
Qed.

(** C10. [_last_recv_time] is 0.0 after construction, no resumption of the
    supervisor writes it, and the accessor [last_recv_time] returns 0.0 in
    every state that the data source reaches. *)
Theorem last_recv_time_is_zero (q : list json) (inputs : list input)
    (st : state) (evs : list event) :
  last_recv_time (init q) = 0%Q
  /\ (listen_ q inputs = Some (st, evs) -> last_recv_time st = 0%Q)
  /\ (forall s i s' evs',
        step_ s i = Some (s', evs') -> last_recv_time s' = last_recv_time s).
Proof.
  split; [reflexivity |]. split.
  - intros Hl.
    apply (listen_invariant (fun s _ => last_recv_time s = 0%Q)) with q inputs evs;
      [| reflexivity | exact Hl].
    intros s e i s' e' H0 Hs. unfold last_recv_time in *.
    now rewrite (step_last_recv_time s i s' e' Hs).
  - intros s i s' evs' Hs. exact (step_last_recv_time s i s' evs' Hs).
Qed.

(** ** Subscription *)

Lemma sent_app (evs1 evs2 : list event) : sent (evs1 ++ evs2) = sent evs1 ++ sent evs2.
Proof. apply flat_map_app. Qed.

Lemma step_sends_login (st : state) (evs : list event) (i : input)
    (st' : state) (evs' : list event) :
  Forall (fun p => exists t, p = ws_authenticate auth t) (sent evs) ->
  step_ st i = Some (st', evs') ->
  Forall (fun p => exists t, p = ws_authenticate auth t) (sent (evs ++ evs')).
Proof.
  intros HI Hs. rewrite sent_app. apply Forall_app. split; [exact HI |].
  destruct st as [p w f l r q], i as [rs t]; simpl in *.
  step_cases Hs; simpl; repeat constructor; eauto.
Qed.

Lemma subscribe_is_no_login (SPOT_SUBSCRIBE : string) (t : Q) :
  subscribe_payload SPOT_SUBSCRIBE <> ws_authenticate auth t.
Proof. unfold subscribe_payload, ws_authenticate. discriminate. Qed.

(** What [_subscribe_channels] would send: one frame per trading pair,
    each {"method": SPOT_SUBSCRIBE, "params": {}, "id": 21}. *)
Lemma subscribe_channels_frames (SPOT_SUBSCRIBE : string) (trading_pairs : list string)
    (h : handle) :
  _subscribe_channels SPOT_SUBSCRIBE trading_pairs h
  = repeat (send h (JObj [ ("method", JStr SPOT_SUBSCRIBE); ("params", JObj []);
                            ("id", JInt 21) ]))
      (length trading_pairs).
Proof.
  unfold _subscribe_channels. induction trading_pairs as [|p ps IH]; [reflexivity |].
  simpl. now rewrite IH.
Qed.

(** C5 (the code on any run). [listen_for_user_stream] never calls
    [_subscribe_channels]: every payload that the supervisor sends is a
    login payload, so no subscribe frame is sent in any connection cycle,
    whatever the configured trading pairs. *)
Theorem supervisor_sends_no_subscribe (SPOT_SUBSCRIBE : string)
    (trading_pairs : list string) (q : list json) (inputs : list input)
    (st : state) (evs : list event) :
  listen_ q inputs = Some (st, evs) ->
  (forall p, In p (sent evs) -> exists t, p = ws_authenticate auth t)
  /\ ~ In (subscribe_payload SPOT_SUBSCRIBE) (sent evs)
  /\ (forall h ev,
        In ev (_subscribe_channels SPOT_SUBSCRIBE trading_pairs h) -> ~ In ev evs).
Proof.
  intros Hl.
  assert (HF : Forall (fun p => exists t, p = ws_authenticate auth t) (sent evs)).
  { eapply (listen_invariant (fun _ e =>
              Forall (fun p => exists t, p = ws_authenticate auth t) (sent e)));
      [intros s e i s' e' H0 Hs; exact (step_sends_login s e i s' e' H0 Hs) | | exact Hl].
    simpl. constructor. }
  rewrite Forall_forall in HF.
  assert (Hno : ~ In (subscribe_payload SPOT_SUBSCRIBE) (sent evs)).
  { intros Hin. apply list_elem_of_In in Hin. destruct (HF _ Hin) as [t Ht].
    exact (subscribe_is_no_login SPOT_SUBSCRIBE t Ht). }
  split; [| split; [exact Hno |]].
  - intros p Hin. apply list_elem_of_In in Hin. exact (HF p Hin).
  - intros h ev Hev Hin. unfold _subscribe_channels in Hev.
    apply in_map_iff in Hev. destruct Hev as (pair & <- & _).
    apply Hno. unfold sent. apply in_flat_map.
    exists (send h (subscribe_payload SPOT_SUBSCRIBE)). split; [exact Hin | now left].
Qed.

(** ** Frames *)

(** C6 (the code at the frame {"method": "unknown"}). The router reads
    data["params"] as soon as the frame has a method field: on a frame
    with a method and no params it raises KeyError, nothing is pushed, and
    the supervisor logs the error and closes the handle to reconnect. *)
Theorem unknown_method_without_params_raises (st : state) (h : handle) (t : Q)
    (q : list json) :
  process_message convert_order convert_balance Scenario.unknown_method q
    = (Raise (KeyError "params"), q)
  /\ (at_pc st = AtFrameWait -> ws st = Some h ->
      step_ st (mkInput (Message Scenario.unknown_method) t)
      = Some (set_pc (AtDisconnect None) st,
              [log_exception retry_message; disconnect h])).
Proof.
  split; [reflexivity |].
  intros Hpc Hws. destruct st as [p w f l r q0]. simpl in Hpc, Hws. subst p w.
  reflexivity.
Qed.

End SupervisorFacts.

(* ===================================================================== *)
(** * The theorems at sample values                                         *)
(* ===================================================================== *)





(** A cancellation during [connect] on handle 7. *)
Lemma cancellation_runs_reconnect_delay_at_connect :
  run Scenario.url Scenario.heartbeat Scenario.credentials
    _convert_to_internal_order_format _convert_to_internal_balance_format
    Scenario.in_connect
    [mkInput (Raised CancelledError) 1; mkInput Returned 1; mkInput Returned 6]
  = Some (set_pc (Stopped CancelledError) Scenario.in_connect,
          [disconnect 7%nat; sleep 5]).
Proof.
  apply (cancellation_runs_reconnect_delay Scenario.url Scenario.heartbeat
           Scenario.credentials _convert_to_internal_order_format
           _convert_to_internal_balance_format Scenario.in_connect 7%nat 1 1 6);
    reflexivity.
Defined.

(** The heartbeat deadline expires at time 33 in the frame loop. *)
Lemma heartbeat_expiry_stays_in_loop_at_33 :
  exists st',
    step Scenario.url Scenario.heartbeat Scenario.credentials
      _convert_to_internal_order_format _convert_to_internal_balance_format
      Scenario.in_frame_loop (mkInput (Raised TimeoutError) 33)
    = Some (st', [wait_for_messages 7%nat (Scenario.heartbeat - (33 - 33))%Q])
    /\ at_pc st' = AtFrameWait.
Proof.
  destruct (heartbeat_expiry_stays_in_loop Scenario.url Scenario.heartbeat
              Scenario.credentials _convert_to_internal_order_format
              _convert_to_internal_balance_format Scenario.in_frame_loop 7%nat 33
              eq_refl eq_refl)
    as (st' & Hs & _ & _ & Hpc & _).
  exists st'. split; [exact Hs | exact Hpc].
Defined.

(** What the supervisor calls when the first [connect] fails. *)
Lemma one_failed_cycle_calls :
  option_map snd
    (listen_for_user_stream Scenario.url Scenario.heartbeat Scenario.credentials
       _convert_to_internal_order_format _convert_to_internal_balance_format
       [] Scenario.one_failed_cycle)
  = Some [ get_ws_assistant; connect 7%nat Scenario.url;
           log_exception retry_message; disconnect 7%nat; sleep 5;
           connect 7%nat Scenario.url ].
Proof. reflexivity. Qed.



Lemma last_recv_time_is_zero_after_failed_cycle :
  exists st evs,
    listen_for_user_stream Scenario.url Scenario.heartbeat Scenario.credentials
      _convert_to_internal_order_format _convert_to_internal_balance_format
      [] Scenario.one_failed_cycle = Some (st, evs)
    /\ last_recv_time st = 0%Q.
Proof.
  eexists _, _. split; [reflexivity |].
  refine (proj1 (proj2 (last_recv_time_is_zero Scenario.url Scenario.heartbeat
            Scenario.credentials _convert_to_internal_order_format
            _convert_to_internal_balance_format [] Scenario.one_failed_cycle _ _)) _).
  reflexivity.
Defined.

(** After connect and login on handle 7 with one trading pair configured,
    the supervisor waits for frames: it has sent the login payload only. *)
Lemma handshake_calls :
  option_map (fun r => map is_cleanup_call (snd r))
    (listen_for_user_stream Scenario.url Scenario.heartbeat Scenario.credentials
       _convert_to_internal_order_format _convert_to_internal_balance_format
       [] Scenario.handshake)
  = Some [false; false; false; false]
  /\ option_map (fun r => sent (snd r))
       (listen_for_user_stream Scenario.url Scenario.heartbeat Scenario.credentials
          _convert_to_internal_order_format _convert_to_internal_balance_format
          [] Scenario.handshake)
     = Some [ SignerSpec.login_payload "k1" 1000 10000
                "4ab852170b197f43afa2681841b8a0d3570d0d85591e5d9b31e593e52012b428" ].
Proof. split; vm_compute; reflexivity. Qed.

Lemma supervisor_sends_no_subscribe_after_handshake :
  exists st evs,
    listen_for_user_stream Scenario.url Scenario.heartbeat Scenario.credentials
      _convert_to_internal_order_format _convert_to_internal_balance_format
      [] Scenario.handshake = Some (st, evs)
    /\ ~ In (subscribe_payload Scenario.spot_subscribe) (sent evs)
    /\ (forall ev,
          In ev (_subscribe_channels Scenario.spot_subscribe ["BTC-USDT"] 7%nat) ->
          ~ In ev evs).
Proof.
  eexists _, _. split; [vm_compute; reflexivity |].
  destruct (supervisor_sends_no_subscribe Scenario.url Scenario.heartbeat
              Scenario.credentials _convert_to_internal_order_format
              _convert_to_internal_balance_format Scenario.spot_subscribe
              ["BTC-USDT"] [] Scenario.handshake _ _
              ltac:(vm_compute; reflexivity))
    as (_ & Hno & Hsub).
  split; [exact Hno | exact (Hsub 7%nat)].
Defined.

(** The frame {"method": "unknown"} arrives in the frame loop. *)
Lemma unknown_method_without_params_raises_in_loop :
  step Scenario.url Scenario.heartbeat Scenario.credentials
    _convert_to_internal_order_format _convert_to_internal_balance_format
    Scenario.in_frame_loop (mkInput (Message Scenario.unknown_method) 4)
  = Some (set_pc (AtDisconnect None) Scenario.in_frame_loop,
          [log_exception retry_message; disconnect 7%nat]).
Proof.
  apply (proj2 (unknown_method_without_params_raises Scenario.url Scenario.heartbeat
                  Scenario.credentials _convert_to_internal_order_format
                  _convert_to_internal_balance_format Scenario.in_frame_loop 7%nat 4 []));
    reflexivity.
Defined.

(** The frame {"method": "spot_orders", "params": [A, B]}: two pushes. *)
Example two_orders_pushed :
  process_message _convert_to_internal_order_format _convert_to_internal_balance_format
    Scenario.two_orders []
  = (Ok tt, [JNull; JNull])
  /\ process_message Ok Ok Scenario.two_orders [] = (Ok tt, [JStr "A"; JStr "B"]).
Proof. split; reflexivity. Qed.

(* ===================================================================== *)
(** * More on the signer                                                    *)
(* ===================================================================== *)

Section RestSignerMore.

Variable urlsplit : string -> SplitResult.

Lemma canonical_message_fields (m p q : string) (b : option string) (ts : string) :
  SignerSpec.canonical_message m p q b ts = signed_fields m p q b +:+ ts.
Proof.
  unfold SignerSpec.canonical_message, signed_fields.
  now rewrite !append_assoc.
Qed.

Lemma header_by_fields (self : ChangellyAuth) (request : RESTRequest) (t : Q) :
  header_for_authentication urlsplit self request t
  = {[ "Authorization" :=
       SignerSpec.header_value (api_key self)
         (HMAC.hexdigest (secret_key self)
            (signed_fields (RESTMethod_str (method request))
               (path (urlsplit (url request))) (query (urlsplit (url request)))
               (data request)
             +:+ Py.str_int (Py.timestamp_ms t)))
         (Py.str_int (Py.timestamp_ms t)) ]}.
Proof.
  unfold header_for_authentication, _generate_signature. cbv zeta.
  rewrite signed_message, canonical_message_fields. reflexivity.
Qed.

(** [rest_authenticate] changes nothing of the request but its headers,
    keeps every header other than Authorization as it was, and sets
    Authorization to the freshly computed value even when the request
    already carried one. *)
Theorem rest_authenticate_keeps_request
    (self : ChangellyAuth) (request : RESTRequest) (t : Q) (k : string) :
  k <> "Authorization" ->
  method (rest_authenticate urlsplit self request t) = method request
  /\ url (rest_authenticate urlsplit self request t) = url request
  /\ data (rest_authenticate urlsplit self request t) = data request
  /\ exists h : gmap string string,
       headers (rest_authenticate urlsplit self request t) = Some h
       /\ h !! k = match headers request with
                   | Some old => old !! k
                   | None => None
                   end
       /\ h !! "Authorization"
          = header_for_authentication urlsplit self request t !! "Authorization"
       /\ is_Some (h !! "Authorization").
Proof.
  intros Hk. repeat (split; [reflexivity |]).
  unfold rest_authenticate. simpl. eexists. split; [reflexivity |].
  rewrite header_by_fields. split; [| split].
  - rewrite lookup_union_r by (now apply lookup_singleton_ne).
    destruct (headers request) as [old|]; [| apply lookup_empty].
    now rewrite (right_id_L ∅ (∪)).
  - rewrite (lookup_union_Some_l _ _ _ _ (lookup_singleton_eq _ _)).
    now rewrite lookup_singleton_eq.
  - rewrite (lookup_union_Some_l _ _ _ _ (lookup_singleton_eq _ _)). eauto.
Qed.

(** The signed message carries no delimiters: two requests whose method
    name, path, "?"-prefixed query and body concatenate to the same string
    get the same Authorization header at the same time. In particular a
    body that is the empty string is signed like no body, and moving a
    suffix of the path into the body does not change the signature. *)
Theorem signature_ignores_field_boundaries
    (self : ChangellyAuth) (r1 r2 : RESTRequest) (t : Q) :
  (signed_fields (RESTMethod_str (method r1)) (path (urlsplit (url r1)))
     (query (urlsplit (url r1))) (data r1)
   = signed_fields (RESTMethod_str (method r2)) (path (urlsplit (url r2)))
       (query (urlsplit (url r2))) (data r2) ->
   header_for_authentication urlsplit self r1 t
   = header_for_authentication urlsplit self r2 t)
  /\ header_for_authentication urlsplit self (with_data r1 (Some "")) t
     = header_for_authentication urlsplit self (with_data r1 None) t
  /\ (forall b,
        method r1 = method r2 ->
        query (urlsplit (url r1)) = "" -> query (urlsplit (url r2)) = "" ->
        data r1 = Some b -> data r2 = None ->
        path (urlsplit (url r2)) = path (urlsplit (url r1)) +:+ b ->
        header_for_authentication urlsplit self r1 t
        = header_for_authentication urlsplit self r2 t).
Proof.
  assert (Hgen : forall a b : RESTRequest,
    signed_fields (RESTMethod_str (method a)) (path (urlsplit (url a)))
      (query (urlsplit (url a))) (data a)
    = signed_fields (RESTMethod_str (method b)) (path (urlsplit (url b)))
        (query (urlsplit (url b))) (data b) ->
    header_for_authentication urlsplit self a t
    = header_for_authentication urlsplit self b t).
  { intros a b H. rewrite !header_by_fields. now rewrite H. }
  split; [apply Hgen |]. split.
  - apply Hgen. reflexivity.
  - intros b Hm Hq1 Hq2 Hd1 Hd2 Hp. apply Hgen.
    unfold signed_fields. rewrite Hm, Hq1, Hq2, Hd1, Hd2, Hp. simpl.
    rewrite ?append_empty_l, ?append_empty_r, ?append_assoc. reflexivity.
Qed.

End RestSignerMore.

(* ===================================================================== *)
(** * More on the router                                                    *)
(* ===================================================================== *)

Section RouterMore.

Variables convert_order convert_balance : json -> result json.

Local Abbreviation process_ := (process_message convert_order convert_balance).

Lemma put_each_from_empty (convert : json -> result json) (items q : list json) :
  put_each convert items q
  = (fst (put_each convert items []), q ++ snd (put_each convert items [])).
Proof.
  revert q. induction items as [|x items IH]; intros q; simpl.
  - now rewrite app_nil_r.
  - destruct (convert x) as [v|e]; simpl; [| now rewrite app_nil_r].
    rewrite (IH (q ++ [v])), (IH [v]). simpl. now rewrite <- app_assoc.
Qed.

Lemma for_each_from_empty (convert : json -> result json) (params : json)
    (q : list json) :
  for_each convert params q
  = (fst (for_each convert params []), q ++ snd (for_each convert params [])).
Proof.
  unfold for_each. destruct (py_iter params) as [items|].
  - apply put_each_from_empty.
  - simpl. now rewrite app_nil_r.
Qed.

(** The router only appends to the output queue, and what a frame appends
    and whether it raises do not depend on what the queue already holds. *)
Theorem process_message_appends (data : list (string * json)) (q : list json) :
  process_ data q = (fst (process_ data []), q ++ snd (process_ data [])).
Proof.
  unfold process_message, _handle_spot_order, _handle_spot_balance.
  destruct (PyDict.get "method" data) as [method|]; [| simpl; now rewrite app_nil_r].
  destruct (PyDict.get "params" data) as [params|]; [| simpl; now rewrite app_nil_r].
  destruct (str_eq method "spot_order" || str_eq method "spot_orders");
    [apply for_each_from_empty |].
  destruct (str_eq method "spot_balance"); [apply for_each_from_empty |].
  simpl. now rewrite app_nil_r.
Qed.

(** A spot_order, spot_orders or spot_balance frame whose params is a list
    of n elements that all convert: the n results are appended to the
    queue in the order of the list, behind what the queue held. *)
Theorem handled_frame_pushes_in_order
    (data : list (string * json)) (method : json) (items vs : list json)
    (convert : json -> result json) (q : list json) :
  PyDict.get "method" data = Some method ->
  PyDict.get "params" data = Some (JList items) ->
  dispatched convert_order convert_balance method convert ->
  converted convert items vs ->
  process_ data q = (Ok tt, q ++ vs)
  /\ length vs = length items
  /\ (forall k x, items !! k = Some x -> exists v, vs !! k = Some v /\ convert x = Ok v).
Proof.
  intros Hm Hp Hd Hc.
  destruct (process_message_handled convert_order convert_balance data method items vs
              convert q Hm Hp Hd Hc) as [H1 H2].
  split; [exact H1 |]. split; [exact H2 |].
  intros k x Hk. unfold converted in Hc.
  destruct (Forall2_lookup_l _ _ _ _ _ Hc Hk) as (v & Hv & Hx). eauto.
Qed.

(** On a handled frame whose params is null, a number or a boolean the
    loop over params raises TypeError and nothing is pushed; on a frame
    with any other method value such params are ignored. *)
Theorem scalar_params_raise_type_error
    (data : list (string * json)) (method params : json) (q : list json) :
  PyDict.get "method" data = Some method ->
  PyDict.get "params" data = Some params ->
  py_iter params = None ->
  (str_eq method "spot_order" || str_eq method "spot_orders"
     || str_eq method "spot_balance" = true ->
   process_ data q = (Raise (TypeError "object is not iterable"), q))
  /\ (str_eq method "spot_order" || str_eq method "spot_orders"
        || str_eq method "spot_balance" = false ->
      process_ data q = (Ok tt, q)).
Proof.
  intros Hm Hp Hi. unfold process_message, _handle_spot_order, _handle_spot_balance,
    for_each. rewrite Hm, Hp, Hi.
  destruct (str_eq method "spot_order" || str_eq method "spot_orders");
    destruct (str_eq method "spot_balance"); simpl; split; intros H;
    try discriminate; reflexivity.
Qed.

(** Frames that the router ignores: no method field (whatever else the
    frame holds), a method value that is not a string, or a string other
    than the three handled names when the frame has a params field. *)
Theorem ignored_frames (data : list (string * json)) (q : list json) :
  (PyDict.get "method" data = None -> process_ data q = (Ok tt, q))
  /\ (forall method params,
        PyDict.get "method" data = Some method ->
        PyDict.get "params" data = Some params ->
        (forall s, method <> JStr s) ->
        process_ data q = (Ok tt, q))
  /\ (forall s params,
        PyDict.get "method" data = Some (JStr s) ->
        PyDict.get "params" data = Some params ->
        s <> "spot_order" -> s <> "spot_orders" -> s <> "spot_balance" ->
        process_ data q = (Ok tt, q)).
Proof.
  split; [apply process_message_no_method |]. split.
  - intros method params Hm Hp Hs.
    apply (process_message_other_method _ _ data method params q Hm Hp);
      destruct method; try reflexivity; now destruct (Hs s).
  - intros s params Hm Hp H1 H2 H3.
    apply (process_message_other_method _ _ data (JStr s) params q Hm Hp); simpl;
      apply String.eqb_neq; assumption.
Qed.

End RouterMore.

(** With the conversions that the class defines, whatever a frame holds,
    the router pushes only None values: it returns or raises KeyError or
    TypeError, and the queue grows by as many None as elements were
    iterated. *)
Theorem stub_conversions_push_none (data : list (string * json)) (q : list json) :
  exists n,
    snd (process_message _convert_to_internal_order_format
           _convert_to_internal_balance_format data q)
    = q ++ repeat JNull n
    /\ (fst (process_message _convert_to_internal_order_format
               _convert_to_internal_balance_format data q) = Ok tt
        \/ (fst (process_message _convert_to_internal_order_format
                   _convert_to_internal_balance_format data q)
            = Raise (KeyError "params") /\ n = 0%nat)
        \/ (fst (process_message _convert_to_internal_order_format
                   _convert_to_internal_balance_format data q)
            = Raise (TypeError "object is not iterable") /\ n = 0%nat))
    /\ (forall method items,
          PyDict.get "method" data = Some method ->
          PyDict.get "params" data = Some (JList items) ->
          str_eq method "spot_order" || str_eq method "spot_orders"
            || str_eq method "spot_balance" = true ->
          n = length items
          /\ fst (process_message _convert_to_internal_order_format
                    _convert_to_internal_balance_format data q) = Ok tt).
Proof.
  assert (Hstub : forall items q0,
            put_each (fun _ => Ok JNull) items q0
            = (Ok tt, q0 ++ repeat JNull (length items))).
  { intros items q0. rewrite (put_each_all _ items (map (fun _ => JNull) items) q0
                                (converted_stub items)).
    f_equal. f_equal. induction items; simpl; [reflexivity | now f_equal]. }
  unfold process_message, _handle_spot_order, _handle_spot_balance, for_each,
    _convert_to_internal_order_format, _convert_to_internal_balance_format.
  destruct (PyDict.get "method" data) as [method|].
  2: { exists 0%nat. simpl. rewrite app_nil_r. split; [reflexivity |].
       split; [now left | intros; discriminate]. }
  destruct (PyDict.get "params" data) as [params|].
  2: { exists 0%nat. simpl. rewrite app_nil_r. split; [reflexivity |].
       split; [right; left; now split | intros; discriminate]. }
  destruct (str_eq method "spot_order" || str_eq method "spot_orders") eqn:Ho;
    [| destruct (str_eq method "spot_balance") eqn:Hb].
  3: { exists 0%nat. simpl. rewrite app_nil_r. split; [reflexivity |].
       split; [now left |].
       intros m its Hm' Hp' H. simplify_eq. rewrite Ho, Hb in H. discriminate H. }
  all: destruct (py_iter params) as [items|] eqn:Hi.
  all: try (exists 0%nat; simpl; rewrite app_nil_r; split; [reflexivity |];
            split; [right; right; now split |];
            intros m its Hm' Hp' _; simplify_eq; discriminate).
  all: exists (length items); rewrite Hstub; simpl; split; [reflexivity |];
       split; [now left |]; intros m its Hm' Hp' _; simplify_eq;
       simpl in Hi; simplify_eq; split; reflexivity.
Qed.

(* ===================================================================== *)
(** * More on the supervisor                                                *)
(* ===================================================================== *)

Section SupervisorMore.

Variable WSS_TRADING_URL : string.
Variable WS_HEARTBEAT_TIME_INTERVAL : Q.
Variable auth : ChangellyAuth.
Variables convert_order convert_balance : json -> result json.

Local Abbreviation step_ :=
  (step WSS_TRADING_URL WS_HEARTBEAT_TIME_INTERVAL auth convert_order convert_balance).
Local Abbreviation run_ :=
  (run WSS_TRADING_URL WS_HEARTBEAT_TIME_INTERVAL auth convert_order convert_balance).
Local Abbreviation listen_ :=
  (listen_for_user_stream WSS_TRADING_URL WS_HEARTBEAT_TIME_INTERVAL auth
     convert_order convert_balance).

(** ** The end of the stream *)

Lemma step_quiet (st : state) (h : handle) (last : Q) (i : input) :
  at_pc st = AtFrameWait -> ws st = Some h ->
  _last_ws_message_sent_timestamp st = Some last ->
  quiet i = true ->
  exists st' last',
    step_ st i
    = Some (st', [wait_for_messages h
                    (WS_HEARTBEAT_TIME_INTERVAL - (clock i - last'))%Q])
    /\ at_pc st' = AtFrameWait /\ ws st' = Some h
    /\ _last_ws_message_sent_timestamp st' = Some last'
    /\ _ws_assistant st' = _ws_assistant st
    /\ output st' = output st
    /\ (resp i = Exhausted -> last' = last)
    /\ (resp i = Raised TimeoutError -> last' = clock i).
Proof.
  intros Hpc Hws Hl Hq. destruct st as [p w f l r q], i as [rs t].
  simpl in *. subst p w l. unfold quiet in Hq. simpl in Hq.
  destruct rs as [| | | |e]; try discriminate Hq.
  - exists (mkState AtFrameWait (Some h) f (Some last) r q), last.
    repeat split; try reflexivity. intros; discriminate.
  - destruct e; try discriminate Hq.
    exists (mkState AtFrameWait (Some h) f (Some t) r q), t.
    repeat split; try reflexivity. intros; discriminate.
Qed.

(** When the message iterator ends (the peer closed the stream) the
    supervisor does not reconnect: through any sequence of iterator ends
    and heartbeat expiries it stays in the frame loop on the same handle,
    each time only calling wait_for again, with the time left until the
    deadline when the iterator ended; it never calls disconnect, connect
    or sleep, and pushes nothing. *)
Theorem stream_end_does_not_reconnect (inputs : list input) (st : state)
    (h : handle) (last : Q) :
  at_pc st = AtFrameWait -> ws st = Some h ->
  _last_ws_message_sent_timestamp st = Some last ->
  forallb quiet inputs = true ->
  exists st' evs,
    run_ st inputs = Some (st', evs)
    /\ at_pc st' = AtFrameWait /\ ws st' = Some h
    /\ _ws_assistant st' = _ws_assistant st
    /\ output st' = output st
    /\ length evs = length inputs
    /\ Forall (fun ev => exists timeout, ev = wait_for_messages h timeout) evs
    /\ (forall t, inputs = [mkInput Exhausted t] ->
        evs = [wait_for_messages h (WS_HEARTBEAT_TIME_INTERVAL - (t - last))%Q]).
Proof.
  revert st last. induction inputs as [|i inputs IH]; intros st last Hpc Hws Hl Hq.
  - exists st, []. simpl. repeat split; auto. intros t Ht. discriminate Ht.
  - simpl in Hq. apply andb_true_iff in Hq. destruct Hq as [Hi Hq].
    destruct (step_quiet st h last i Hpc Hws Hl Hi)
      as (st1 & l1 & Hs & Hpc1 & Hws1 & Hl1 & Hf1 & Ho1 & Hex & _).
    destruct (IH st1 l1 Hpc1 Hws1 Hl1 Hq)
      as (st2 & evs2 & Hr & Hpc2 & Hws2 & Hf2 & Ho2 & Hlen & Hall & _).
    exists st2, (wait_for_messages h
                   (WS_HEARTBEAT_TIME_INTERVAL - (clock i - l1))%Q :: evs2).
    simpl. rewrite Hs, Hr. simpl.
    repeat split; auto; try congruence.
    + constructor; eauto.
    + intros t Ht. injection Ht as -> ->. simpl in *.
      rewrite (Hex eq_refl). simpl in Hr. now simplify_eq.
Qed.

(** ** Failures of the cleanup *)

(** The calls of the [finally] block are outside the [try]: whatever
    [disconnect] or [sleep] raises, even an ordinary error, ends
    [listen_for_user_stream] with that exception, in place of a pending
    one, and nothing is logged or retried. So a handle whose connect and
    disconnect both fail stops the supervisor. *)
Theorem cleanup_failure_ends_supervisor (st : state) (pending : option exn)
    (e : exn) (t : Q) :
  at_pc st = AtDisconnect pending \/ at_pc st = AtSleep pending ->
  step_ st (mkInput (Raised e) t) = Some (set_pc (Stopped e) st, [])
  /\ (forall i, step_ (set_pc (Stopped e) st) i = None)
  /\ (forall q h e1 t0 t1,
        is_Exception e1 = true ->
        listen_ q [mkInput (Assistant h) t0; mkInput (Raised e1) t1; mkInput (Raised e) t]
        = Some (mkState (Stopped e) (Some h) (Some h) None 0 q,
                [get_ws_assistant; connect h WSS_TRADING_URL;
                 log_exception retry_message; disconnect h])).
Proof.
  intros Hpc. split; [| split].
  - unfold step. destruct Hpc as [-> | ->]; [reflexivity |].
    destruct pending; reflexivity.
  - intros i. unfold step. simpl. destruct (resp i); reflexivity.
  - intros q h e1 t0 t1 He1. destruct e1; try discriminate He1; reflexivity.
Qed.

(** ** Exceptions that are not errors *)

(** An exception outside [Exception] (KeyboardInterrupt, SystemExit, a
    cancellation) raised at an await of the [try] statement is neither
    logged nor retried: the [finally] block runs, with the disconnect only
    when a handle is set, and the exception then reaches the caller. *)
Theorem non_errors_are_not_retried (st : state) (e : exn) (t1 t2 t3 : Q) :
  in_try (at_pc st) = true -> is_Exception e = false ->
  match ws st with
  | Some h =>
      run_ st [mkInput (Raised e) t1; mkInput Returned t2; mkInput Returned t3]
      = Some (set_pc (Stopped e) st, [disconnect h; sleep 5])
  | None =>
      run_ st [mkInput (Raised e) t1; mkInput Returned t2]
      = Some (set_pc (Stopped e) st, [sleep 5])
  end.
Proof.
  intros Hpc He. destruct st as [p w f l r q]. simpl in *.
  destruct p; try discriminate Hpc; destruct e; try discriminate He;
    destruct w; reflexivity.
Qed.

(** ** Frames and the heartbeat deadline *)

(** A frame that is processed without error leaves the supervisor in the
    same wait_for call: no call is made, the queue takes what the router
    pushed, and [_last_ws_message_sent_timestamp] is not touched, so
    incoming frames do not postpone the heartbeat deadline: when the
    iterator next ends, the time left is still counted from the old
    timestamp. *)
Theorem frames_do_not_postpone_heartbeat (st : state) (h : handle) (last : Q)
    (data : list (string * json)) (q : list json) (t t' : Q) :
  at_pc st = AtFrameWait -> ws st = Some h ->
  _last_ws_message_sent_timestamp st = Some last ->
  process_message convert_order convert_balance data (output st) = (Ok tt, q) ->
  step_ st (mkInput (Message data) t) = Some (set_output q st, [])
  /\ _last_ws_message_sent_timestamp (set_output q st) = Some last
  /\ run_ st [mkInput (Message data) t; mkInput Exhausted t']
     = Some (set_output q st,
             [wait_for_messages h (WS_HEARTBEAT_TIME_INTERVAL - (t' - last))%Q]).
Proof.
  intros Hpc Hws Hl Hp. destruct st as [p w f l r q0]. simpl in *. subst p w l.
  unfold run, step. simpl. rewrite Hp. repeat split; reflexivity.
Qed.

(** ** The output queue *)

Lemma process_message_grows (data : list (string * json)) (q : list json) :
  exists added,
    snd (process_message convert_order convert_balance data q) = q ++ added.
Proof.
  unfold process_message, _handle_spot_order, _handle_spot_balance.
  repeat case_match; simpl;
    try (exists []; now rewrite app_nil_r);
    rewrite for_each_from_empty; simpl; eauto.
Qed.

Lemma step_output_grows (st : state) (i : input) (st' : state) (evs : list event) :
  step_ st i = Some (st', evs) -> exists added, output st' = output st ++ added.
Proof.
  intros Hs. destruct st as [p w f l r q], i as [rs t]; simpl in *.
  step_cases Hs; simpl; try (exists []; now rewrite app_nil_r);
    match goal with
    | H : process_message _ _ ?d ?q0 = (_, _) |- _ =>
        pose proof (process_message_grows d q0) as [added Ha];
        rewrite H in Ha; simpl in Ha; eauto
    end.
Qed.

(** The supervisor only ever appends to the output queue: after any run,
    from any state, the queue is the queue it started with followed by
    what was pushed; it removes and reorders nothing, also across errors
    and reconnections. *)
Theorem output_is_append_only (inputs : list input) (st st' : state)
    (evs : list event) :
  run_ st inputs = Some (st', evs) ->
  exists added, output st' = output st ++ added.
Proof.
  intros Hr.
  refine (run_invariant WSS_TRADING_URL WS_HEARTBEAT_TIME_INTERVAL auth
            convert_order convert_balance
            (fun s _ => exists added, output s = output st ++ added)
            _ inputs st [] st' evs _ Hr).
  - intros s e i s' e' [added Ha] Hs.
    destruct (step_output_grows s i s' e' Hs) as [more Hm].
    exists (added ++ more). now rewrite Hm, Ha, app_assoc.
  - exists []. now rewrite app_nil_r.
Qed.

(** ** Handles and calls *)

Lemma sent_length_app (evs1 evs2 : list event) :
  length (sent (evs1 ++ evs2)) = (length (sent evs1) + length (sent evs2))%nat.
Proof. unfold sent. now rewrite flat_map_app, length_app. Qed.

Lemma connected_length_app (evs1 evs2 : list event) :
  length (connected (evs1 ++ evs2))
  = (length (connected evs1) + length (connected evs2))%nat.
Proof. unfold connected. now rewrite flat_map_app, length_app. Qed.

Lemma step_calls_follow_connect (st : state) (evs : list event) (i : input)
    (st' : state) (evs' : list event) :
  calls_follow_connect st evs -> step_ st i = Some (st', evs') ->
  calls_follow_connect st' (evs ++ evs').
Proof.
  unfold calls_follow_connect. intros (Hws & Hall & Hle & Hlt) Hs.
  rewrite sent_length_app, connected_length_app.
  assert (Hmono : forall h, In h (connected evs) -> In h (connected (evs ++ evs'))).
  { intros h Hin. unfold connected. rewrite flat_map_app. apply in_or_app. now left. }
  assert (Hnew : forall h u, In (connect h u) evs' -> In h (connected (evs ++ evs'))).
  { intros h u Hin. unfold connected. rewrite flat_map_app. apply in_or_app. right.
    apply in_flat_map. exists (connect h u). split; [exact Hin | now left]. }
  destruct st as [p w f l r q], i as [rs t]; simpl in *.
  step_cases Hs; simpl in *;
    (split; [| split; [| split]]);
    try (intros h0 Hh0; simplify_eq; first
           [ apply Hmono, Hws; reflexivity | eapply Hnew; now left ]);
    try (intros ev h0 Hin Hh0; apply in_app_or in Hin; destruct Hin as [Hin | Hin];
         [ apply Hmono; eapply Hall; eassumption
         | simpl in Hin; intuition (subst; simpl in *; simplify_eq;
             first [ apply Hmono, Hws; reflexivity | eapply Hnew; now left ]) ]);
    try lia; try (intros; discriminate); try (intros _; specialize (Hlt eq_refl); lia);
    try (intros Hp; specialize (Hlt Hp); lia);
    try (specialize (Hlt ltac:(assumption)); lia).
Qed.

(** In every run, each call made on a handle (a login send, a wait for
    frames, a disconnect) is made on a handle that [connect] was called
    on earlier in the run, and the supervisor has sent at most one login
    per connect. *)
Theorem calls_only_on_connected_handles (q : list json) (inputs : list input)
    (st : state) (evs : list event) :
  listen_ q inputs = Some (st, evs) ->
  (forall ev h, In ev evs -> handle_of ev = Some h -> In h (connected evs))
  /\ (length (sent evs) <= length (connected evs))%nat.
Proof.
  intros Hl.
  assert (HI : calls_follow_connect st evs).
  { eapply (listen_invariant WSS_TRADING_URL WS_HEARTBEAT_TIME_INTERVAL auth
              convert_order convert_balance calls_follow_connect);
      [apply step_calls_follow_connect | | exact Hl].
    unfold calls_follow_connect. simpl. repeat split; try discriminate; auto.
    intros ev h [<- | []]; discriminate. }
  destruct HI as (_ & Hall & Hle & _). split; assumption.
Qed.

(** ** Close, then sleep *)

Lemma closes_then_sleeps_app (evs evs' : list event) :
  closes_then_sleeps evs -> closes_then_sleeps evs' ->
  (ends_with_disconnect evs = true ->
   match evs' with [] => True | ev :: _ => ev = sleep 5 end) ->
  closes_then_sleeps (evs ++ evs').
Proof.
  induction evs as [|ev rest IH]; intros H1 H2 H3; [exact H2 |].
  destruct rest as [|next rest'].
  - destruct ev; simpl in *; auto.
    + destruct evs' as [|ev' evs'']; [exact I |]. split; [now apply H3 | exact H2].
    + tauto.
  - assert (Hrest : closes_then_sleeps ((next :: rest') ++ evs')).
    { apply IH; [| exact H2 | exact H3].
      destruct ev; simpl in H1; tauto. }
    destruct ev; simpl in H1 |- *; try exact Hrest; tauto.
Qed.

Lemma ends_with_disconnect_app (evs evs' : list event) :
  ends_with_disconnect (evs ++ evs')
  = match evs' with
    | [] => ends_with_disconnect evs
    | _ => ends_with_disconnect evs'
    end.
Proof.
  destruct evs' as [|ev' evs'']; [now rewrite app_nil_r |].
  induction evs as [|ev rest IH]; [reflexivity |].
  simpl. destruct (rest ++ ev' :: evs'') eqn:He; [| exact IH].
  destruct rest; discriminate He.
Qed.

Lemma step_closing (st : state) (evs : list event) (i : input)
    (st' : state) (evs' : list event) :
  closing st evs -> step_ st i = Some (st', evs') -> closing st' (evs ++ evs').
Proof.
  unfold closing. intros [Hc He] Hs. rewrite ends_with_disconnect_app.
  destruct st as [p w f l r q], i as [rs t]; simpl in *.
  step_cases Hs; simpl in *;
    (split; [apply closes_then_sleeps_app; simpl; auto; intros Hd; apply He in Hd;
             try contradiction; auto
            | try discriminate; try exact He; auto]).
Qed.

(** In the calls of every run, each [disconnect] that is not the last
    call is directly followed by [sleep 5], and every [sleep] lasts 5
    seconds: the reconnect delay is fixed, with no back-off, and nothing
    is called between closing a handle and the delay. *)
Theorem disconnect_is_followed_by_sleep (q : list json) (inputs : list input)
    (st : state) (evs : list event) :
  listen_ q inputs = Some (st, evs) ->
  closes_then_sleeps evs
  /\ Forall (fun ev => forall d, ev = sleep d -> d = 5) evs.
Proof.
  intros Hl.
  assert (HI : closing st evs).
  { eapply (listen_invariant WSS_TRADING_URL WS_HEARTBEAT_TIME_INTERVAL auth
              convert_order convert_balance closing);
      [apply step_closing | | exact Hl].
    unfold closing. simpl. split; [exact I | discriminate]. }
  destruct HI as [Hc _]. split; [exact Hc |].
  clear Hl. induction evs as [|ev rest IH]; [constructor |].
  assert (Hrest : closes_then_sleeps rest).
  { destruct ev; simpl in Hc; try exact Hc; try tauto.
    destruct rest; [exact I | tauto]. }
  constructor; [| exact (IH Hrest)].
  intros d ->. simpl in Hc. tauto.
Qed.

(** ** A factory that fails *)

Lemma run_failing_factory (e : exn) (clocks : list Q) (st : state) :
  is_Exception e = true ->
  at_pc st = AtFactory -> ws st = None -> _ws_assistant st = None ->
  run_ st (failing_factory e clocks) = Some (st, factory_retry_calls (length clocks)).
Proof.
  intros He Hpc Hws Hf. induction clocks as [|t clocks IH]; [reflexivity |].
  change (failing_factory e (t :: clocks))
    with ([mkInput (Raised e) t; mkInput Returned t] ++ failing_factory e clocks).
  rewrite run_app.
  assert (H2 : run_ st [mkInput (Raised e) t; mkInput Returned t]
               = Some (st, [log_exception retry_message; sleep 5; get_ws_assistant])).
  { destruct st as [p w f l r q]. simpl in Hpc, Hws, Hf. subst p w f.
    destruct e; try discriminate He; reflexivity. }
  rewrite H2, IH. reflexivity.
Qed.

(** While the factory fails there is no handle to close: each failure is
    logged and followed by the 5-second sleep and a new call of the
    factory, never by a disconnect; the supervisor is again waiting for
    the factory, with nothing cached and nothing pushed. *)
Theorem factory_failures_are_retried (e : exn) (clocks : list Q) (q : list json) :
  is_Exception e = true ->
  listen_ q (failing_factory e clocks)
  = Some (init q, get_ws_assistant :: factory_retry_calls (length clocks))
  /\ Forall (fun ev => is_disconnect ev = false)
       (get_ws_assistant :: factory_retry_calls (length clocks)).
Proof.
  intros He. split.
  - unfold listen_for_user_stream. simpl.
    change (set_pc AtFactory (init q)) with (init q).
    now rewrite (run_failing_factory e clocks (init q) He eq_refl eq_refl eq_refl).
  - constructor; [reflexivity |]. unfold factory_retry_calls.
    induction (length clocks) as [|n IH]; simpl; repeat constructor. exact IH.
Qed.

End SupervisorMore.

(* ===================================================================== *)
(** * The other coroutines                                                  *)
(* ===================================================================== *)

Section CoroutinesMore.

Variable WSS_TRADING_URL : string.
Variable WS_HEARTBEAT_TIME_INTERVAL : Q.
Variable SPOT_SUBSCRIBE : string.
Variable auth : ChangellyAuth.
Variables convert_order convert_balance : json -> result json.

Local Abbreviation listen_ :=
  (listen_for_user_stream WSS_TRADING_URL WS_HEARTBEAT_TIME_INTERVAL auth
     convert_order convert_balance).
Local Abbreviation connected_ws_ :=
  (_connected_websocket_assistant WSS_TRADING_URL auth).
Local Abbreviation subscribe_run_ := (subscribe_channels_run SPOT_SUBSCRIBE).

(** Case analysis on the resumptions of a short coroutine. *)
Ltac coroutine_cases H :=
  unfold _connected_websocket_assistant, connect_and_login in H;
  repeat case_match; simplify_eq.


(** A connection cycle of [listen_for_user_stream] begins with the very
    calls of [_connected_websocket_assistant]: suspended at the same
    await it has made the same calls; when the handshake completes it goes
    on to wait for frames with the full heartbeat interval; when the
    handshake fails with an error it logs and starts the cleanup, where
    the other coroutine lets the exception out. *)
Theorem listen_begins_with_handshake (q : list json) (inputs : list input)
    (cache' : option handle) (evs : list event) (o : outcome handle) :
  connected_ws_ None inputs = Some (cache', evs, o) ->
  match o with
  | Pending =>
      exists st, listen_ q inputs = Some (st, evs) /\ _ws_assistant st = cache'
  | Done h =>
      exists st t,
        listen_ q inputs
        = Some (st, evs ++ [wait_for_messages h
                              (WS_HEARTBEAT_TIME_INTERVAL - (t - t))%Q])
        /\ at_pc st = AtFrameWait /\ ws st = Some h /\ _ws_assistant st = cache'
  | Failed e =>
      is_Exception e = true ->
      exists st,
        listen_ q inputs
        = Some (st, evs ++ log_exception retry_message
                         :: match cache' with
                            | Some h => [disconnect h]
                            | None => [sleep 5]
                            end)
        /\ _ws_assistant st = cache'
  end.
Proof.
  intros H. coroutine_cases H;
    try (intros He;
         match goal with
         | e : exn |- _ => destruct e; try discriminate He
         end);
    unfold listen_for_user_stream; simpl;
    repeat match goal with
           | H : resp ?i = _ |- _ =>
               let r := fresh "r" in let t := fresh "t" in
               destruct i as [r t]; simpl in H; subst r
           end;
    simpl; eauto 10.
Qed.

Lemma firstn_repeat_le {A : Type} (x : A) (k n : nat) :
  (k <= n)%nat -> firstn k (repeat x n) = repeat x k.
Proof.
  revert n. induction k as [|k IH]; intros n Hle; [reflexivity |].
  destruct n as [|n]; [lia |]. simpl. f_equal. apply IH. lia.
Qed.

Lemma subscribe_channels_cons (p : string) (ps : list string) (ws : handle) :
  _subscribe_channels SPOT_SUBSCRIBE (p :: ps) ws
  = send ws (subscribe_payload SPOT_SUBSCRIBE) :: _subscribe_channels SPOT_SUBSCRIBE ps ws.
Proof. reflexivity. Qed.

Lemma subscribe_run_prefix (ws : handle) (pairs : list string) (inputs : list input)
    (evs : list event) (o : outcome unit) :
  subscribe_run_ ws pairs inputs = Some (evs, o) ->
  evs = firstn (length evs) (_subscribe_channels SPOT_SUBSCRIBE pairs ws)
  /\ match o with
     | Done _ => length evs = length pairs /\ length inputs = length pairs
     | Failed e =>
         length evs = length inputs /\ (length inputs <= length pairs)%nat
         /\ last (map resp inputs) = Some (Raised e)
     | Pending => length evs = S (length inputs) /\ (length inputs < length pairs)%nat
     end.
Proof.
  revert inputs evs o. induction pairs as [|p ps IH]; intros inputs evs o H.
  - simpl in H. destruct inputs; [| discriminate]. simplify_eq. simpl. auto.
  - simpl in H. destruct inputs as [|i more].
    + simplify_eq. simpl. split; [reflexivity | split; [reflexivity | lia]].
    + destruct (resp i) as [| | | |e] eqn:Hr; try discriminate H.
      * destruct (subscribe_run_ ws ps more) as [[evs1 o1]|] eqn:Hrec; [| discriminate].
        injection H as <- <-. destruct (IH more evs1 o1 Hrec) as [Hpre Ho].
        split.
        { rewrite subscribe_channels_cons. simpl. now rewrite <- Hpre. }
        destruct o1.
        { simpl length. lia. }
        { simpl length. lia. }
        { destruct Ho as (H1 & H2 & H3). simpl length. repeat split; try lia.
          change (map resp (i :: more)) with (resp i :: map resp more).
          now rewrite last_cons, H3. }
      * destruct more; [| discriminate]. simplify_eq. simpl.
        split; [reflexivity |]. rewrite Hr. repeat split; lia.
Qed.

(** [_subscribe_channels] sends one frame per trading pair, each the same
    {"method": SPOT_SUBSCRIBE, "params": {}, "id": 21}: the frame does not
    name the pair. The sends are awaited one after the other, so when a
    send raises, the pairs after it get no frame and the exception leaves
    the coroutine; with no trading pairs (or None) it returns at once
    without a call. *)
Theorem subscribe_channels_sends
    (ws : handle) (trading_pairs : list string) :
  (forall inputs evs o,
      subscribe_run_ ws trading_pairs inputs = Some (evs, o) ->
      evs = firstn (length evs) (_subscribe_channels SPOT_SUBSCRIBE trading_pairs ws)
      /\ evs = repeat (send ws (JObj [ ("method", JStr SPOT_SUBSCRIBE);
                                       ("params", JObj []); ("id", JInt 21) ]))
                 (length evs)
      /\ match o with
         | Done _ =>
             length evs = length trading_pairs
             /\ length inputs = length trading_pairs
         | Failed e =>
             length evs = length inputs
             /\ (length inputs <= length trading_pairs)%nat
             /\ last (map resp inputs) = Some (Raised e)
         | Pending =>
             length evs = S (length inputs)
             /\ (length inputs < length trading_pairs)%nat
         end)
  /\ (forall clocks,
        length clocks = length trading_pairs ->
        subscribe_run_ ws trading_pairs (map (mkInput Returned) clocks)
        = Some (_subscribe_channels SPOT_SUBSCRIBE trading_pairs ws, Done tt))
  /\ subscribe_run_ ws (trading_pairs_or_empty None) [] = Some ([], Done tt)
  /\ subscribe_run_ ws (trading_pairs_or_empty (Some [])) [] = Some ([], Done tt).
Proof.
  split; [| split; [| split; reflexivity]].
  - intros inputs evs o H.
    destruct (subscribe_run_prefix ws trading_pairs inputs evs o H) as [Hpre Ho].
    split; [exact Hpre |]. split; [| exact Ho].
    assert (Hle : (length evs <= length trading_pairs)%nat)
      by (destruct o; lia).
    rewrite Hpre at 1. rewrite subscribe_channels_frames.
    now apply firstn_repeat_le.
  - intros clocks Hlen. revert clocks Hlen.
    induction trading_pairs as [|p ps IH]; intros clocks Hlen.
    + destruct clocks; [reflexivity | discriminate Hlen].
    + destruct clocks as [|t clocks]; [discriminate Hlen |].
      simpl in Hlen. injection Hlen as Hlen.
      simpl. now rewrite (IH clocks Hlen).
Qed.

End CoroutinesMore.

(* ===================================================================== *)
(** * The class's conversions on whole runs                                 *)
(* ===================================================================== *)

Lemma put_each_stub (items q : list json) :
  put_each (fun _ => Ok JNull) items q = (Ok tt, q ++ repeat JNull (length items)).
Proof.
  revert q. induction items as [|x items IH]; intros q; simpl.
  - now rewrite app_nil_r.
  - rewrite IH, <- app_assoc. reflexivity.
Qed.

Lemma stub_process_message_grows (data : list (string * json)) (q : list json) :
  exists n,
    snd (process_message _convert_to_internal_order_format
           _convert_to_internal_balance_format data q)
    = q ++ repeat JNull n.
Proof.
  unfold process_message, _handle_spot_order, _handle_spot_balance, for_each,
    _convert_to_internal_order_format, _convert_to_internal_balance_format.
  repeat case_match; simpl;
    try (exists 0%nat; simpl; now rewrite app_nil_r);
    rewrite put_each_stub; simpl; eauto.
Qed.

Lemma repeat_app_none (q : list json) (n m : nat) :
  (q ++ repeat JNull n) ++ repeat JNull m = q ++ repeat JNull (n + m).
Proof. now rewrite <- app_assoc, repeat_app. Qed.

(** With the conversions that the class defines, everything the
    supervisor ever pushes is None: after any run the output queue is the
    queue it was given followed by None values only, whatever frames
    arrived. *)
Theorem supervisor_pushes_only_none
    (WSS_TRADING_URL : string) (WS_HEARTBEAT_TIME_INTERVAL : Q) (auth : ChangellyAuth)
    (q : list json) (inputs : list input) (st : state) (evs : list event) :
  listen_for_user_stream WSS_TRADING_URL WS_HEARTBEAT_TIME_INTERVAL auth
    _convert_to_internal_order_format _convert_to_internal_balance_format
    q inputs = Some (st, evs) ->
  exists n, output st = q ++ repeat JNull n.
Proof.
  intros Hl.
  refine (listen_invariant WSS_TRADING_URL WS_HEARTBEAT_TIME_INTERVAL auth
            _convert_to_internal_order_format _convert_to_internal_balance_format
            (fun s _ => exists n, output s = q ++ repeat JNull n)
            _ q inputs st evs _ Hl).
  - intros s e i s' e' [n Hn] Hs.
    destruct s as [p w f l r q0], i as [rs t]; simpl in *. subst q0.
    step_cases Hs; simpl; eauto;
      match goal with
      | H : process_message _ _ ?d ?q0 = (_, _) |- _ =>
          pose proof (stub_process_message_grows d q0) as [m Hm];
          rewrite H in Hm; simpl in Hm; subst;
          exists (n + m)%nat; apply repeat_app_none
      end.
  - exists 0%nat. simpl. now rewrite app_nil_r.
Qed.

(* ===================================================================== *)
(** * The further theorems at sample values                                 *)
(* ===================================================================== *)

Lemma rest_authenticate_keeps_content_type :
  exists h : gmap string string,
    headers (rest_authenticate Samples.path_only Scenario.credentials
               Samples.post_order 1) = Some h
    /\ h !! "Content-Type" = Some "application/json".
Proof.
  destruct (rest_authenticate_keeps_request Samples.path_only Scenario.credentials
              Samples.post_order 1 "Content-Type" ltac:(discriminate))
    as (_ & _ & _ & h & Hh & Hk & _).
  exists h. split; [exact Hh |]. rewrite Hk. reflexivity.
Defined.

Lemma signature_ignores_field_boundaries_a_b :
  header_for_authentication Samples.path_only Scenario.credentials
    Samples.path_and_body 1
  = header_for_authentication Samples.path_only Scenario.credentials
      Samples.longer_path 1.
Proof.
  apply (proj2 (proj2 (signature_ignores_field_boundaries Samples.path_only
                         Scenario.credentials Samples.path_and_body
                         Samples.longer_path 1)) "b");
    reflexivity.
Defined.

Lemma handled_frame_pushes_in_order_two_orders :
  process_message Ok Ok Scenario.two_orders [JInt 0]
  = (Ok tt, [JInt 0] ++ [JStr "A"; JStr "B"]).
Proof.
  apply (proj1 (handled_frame_pushes_in_order Ok Ok Scenario.two_orders
                  (JStr "spot_orders") [JStr "A"; JStr "B"] [JStr "A"; JStr "B"]
                  Ok [JInt 0] eq_refl eq_refl
                  (or_introl (conj (or_intror eq_refl) eq_refl))
                  ltac:(repeat constructor))).
Defined.

Lemma scalar_params_raise_type_error_null :
  process_message Ok Ok Samples.null_params []
  = (Raise (TypeError "object is not iterable"), []).
Proof.
  apply (proj1 (scalar_params_raise_type_error Ok Ok Samples.null_params
                  (JStr "spot_balance") JNull [] eq_refl eq_refl eq_refl));
    reflexivity.
Defined.

Lemma ignored_frames_login_reply :
  process_message Ok Ok [("result", JBool true); ("id", JInt 21)] [] = (Ok tt, []).
Proof.
  apply (proj1 (ignored_frames Ok Ok [("result", JBool true); ("id", JInt 21)] []));
    reflexivity.
Defined.

Lemma stub_conversions_push_none_two_orders :
  exists n,
    snd (process_message _convert_to_internal_order_format
           _convert_to_internal_balance_format Scenario.two_orders [])
    = [] ++ repeat JNull n
    /\ n = 2%nat.
Proof.
  destruct (stub_conversions_push_none Scenario.two_orders []) as (n & Hn & _ & Hh).
  exists n. split; [exact Hn |].
  exact (proj1 (Hh (JStr "spot_orders") [JStr "A"; JStr "B"] eq_refl eq_refl eq_refl)).
Defined.

Lemma stream_end_does_not_reconnect_three :
  exists st' evs,
    run Scenario.url Scenario.heartbeat Scenario.credentials
      _convert_to_internal_order_format _convert_to_internal_balance_format
      Scenario.in_frame_loop Samples.stream_ends = Some (st', evs)
    /\ at_pc st' = AtFrameWait /\ length evs = 3%nat.
Proof.
  destruct (stream_end_does_not_reconnect Scenario.url Scenario.heartbeat
              Scenario.credentials _convert_to_internal_order_format
              _convert_to_internal_balance_format Samples.stream_ends
              Scenario.in_frame_loop 7%nat 3 eq_refl eq_refl eq_refl eq_refl)
    as (st' & evs & Hr & Hpc & _ & _ & _ & Hlen & _).
  exists st', evs. split; [exact Hr |]. split; [exact Hpc | exact Hlen].
Defined.

Lemma cleanup_failure_ends_supervisor_in_disconnect :
  step Scenario.url Scenario.heartbeat Scenario.credentials
    _convert_to_internal_order_format _convert_to_internal_balance_format
    (set_pc (AtDisconnect None) Scenario.in_connect)
    (mkInput (Raised (Error "ConnectionError")) 2)
  = Some (set_pc (Stopped (Error "ConnectionError"))
            (set_pc (AtDisconnect None) Scenario.in_connect), []).
Proof.
  apply (proj1 (cleanup_failure_ends_supervisor Scenario.url Scenario.heartbeat
                  Scenario.credentials _convert_to_internal_order_format
                  _convert_to_internal_balance_format
                  (set_pc (AtDisconnect None) Scenario.in_connect) None
                  (Error "ConnectionError") 2 (or_introl eq_refl))).
Defined.

Lemma non_errors_are_not_retried_keyboard_interrupt :
  run Scenario.url Scenario.heartbeat Scenario.credentials
    _convert_to_internal_order_format _convert_to_internal_balance_format
    Scenario.in_frame_loop
    [mkInput (Raised (NonError "KeyboardInterrupt")) 4; mkInput Returned 4;
     mkInput Returned 9]
  = Some (set_pc (Stopped (NonError "KeyboardInterrupt")) Scenario.in_frame_loop,
          [disconnect 7%nat; sleep 5]).
Proof.
  exact (non_errors_are_not_retried Scenario.url Scenario.heartbeat
           Scenario.credentials _convert_to_internal_order_format
           _convert_to_internal_balance_format Scenario.in_frame_loop
           (NonError "KeyboardInterrupt") 4 4 9 eq_refl eq_refl).
Defined.

Lemma frames_do_not_postpone_heartbeat_two_orders :
  run Scenario.url Scenario.heartbeat Scenario.credentials
    _convert_to_internal_order_format _convert_to_internal_balance_format
    Scenario.in_frame_loop
    [mkInput (Message Scenario.two_orders) 20; mkInput Exhausted 21]
  = Some (set_output [JNull; JNull] Scenario.in_frame_loop,
          [wait_for_messages 7%nat (Scenario.heartbeat - (21 - 3))%Q]).
Proof.
  apply (proj2 (proj2 (frames_do_not_postpone_heartbeat Scenario.url Scenario.heartbeat
                         Scenario.credentials _convert_to_internal_order_format
                         _convert_to_internal_balance_format Scenario.in_frame_loop
                         7%nat 3 Scenario.two_orders [JNull; JNull] 20 21
                         eq_refl eq_refl eq_refl eq_refl))).
Defined.

Lemma output_is_append_only_across_error :
  exists st' evs added,
    run Scenario.url Scenario.heartbeat Scenario.credentials Ok Ok
      (set_output [JInt 0] Scenario.in_frame_loop) Samples.frame_then_error
    = Some (st', evs)
    /\ output st' = [JInt 0] ++ added.
Proof.
  eexists _, _. 
  assert (Hr : run Scenario.url Scenario.heartbeat Scenario.credentials Ok Ok
                 (set_output [JInt 0] Scenario.in_frame_loop) Samples.frame_then_error
               = Some (mkState (AtDisconnect None) (Some 7%nat) (Some 7%nat) (Some 3%Q) 0
                         [JInt 0; JStr "A"; JStr "B"],
                       [log_exception retry_message; disconnect 7%nat]))
    by reflexivity.
  destruct (output_is_append_only Scenario.url Scenario.heartbeat Scenario.credentials
              Ok Ok Samples.frame_then_error _ _ _ Hr) as [added Ha].
  exists added. split; [exact Hr | exact Ha].
Defined.

Lemma calls_only_on_connected_handles_failed_cycle :
  exists st evs,
    listen_for_user_stream Scenario.url Scenario.heartbeat Scenario.credentials
      _convert_to_internal_order_format _convert_to_internal_balance_format
      [] Scenario.one_failed_cycle = Some (st, evs)
    /\ (length (sent evs) <= length (connected evs))%nat.
Proof.
  eexists _, _. split; [reflexivity |].
  refine (proj2 (calls_only_on_connected_handles Scenario.url Scenario.heartbeat
            Scenario.credentials _convert_to_internal_order_format
            _convert_to_internal_balance_format [] Scenario.one_failed_cycle _ _ _)).
  reflexivity.
Defined.

Lemma disconnect_is_followed_by_sleep_failed_cycle :
  exists st evs,
    listen_for_user_stream Scenario.url Scenario.heartbeat Scenario.credentials
      _convert_to_internal_order_format _convert_to_internal_balance_format
      [] Scenario.one_failed_cycle = Some (st, evs)
    /\ closes_then_sleeps evs.
Proof.
  eexists _, _. split; [reflexivity |].
  refine (proj1 (disconnect_is_followed_by_sleep Scenario.url Scenario.heartbeat
            Scenario.credentials _convert_to_internal_order_format
            _convert_to_internal_balance_format [] Scenario.one_failed_cycle _ _ _)).
  reflexivity.
Defined.

Lemma factory_failures_are_retried_twice :
  listen_for_user_stream Scenario.url Scenario.heartbeat Scenario.credentials
    _convert_to_internal_order_format _convert_to_internal_balance_format
    [] (failing_factory (Error "ConnectionError") [1; 6]%Q)
  = Some (init [], get_ws_assistant :: factory_retry_calls 2).
Proof.
  exact (proj1 (factory_failures_are_retried Scenario.url Scenario.heartbeat
                  Scenario.credentials _convert_to_internal_order_format
                  _convert_to_internal_balance_format (Error "ConnectionError")
                  [1; 6]%Q [] eq_refl)).
Defined.


Lemma listen_begins_with_handshake_done :
  exists st t,
    listen_for_user_stream Scenario.url Scenario.heartbeat Scenario.credentials
      _convert_to_internal_order_format _convert_to_internal_balance_format
      [] Scenario.handshake
    = Some (st, [get_ws_assistant; connect 7%nat Scenario.url;
                 send 7%nat (ws_authenticate Scenario.credentials 1)]
                ++ [wait_for_messages 7%nat (Scenario.heartbeat - (t - t))%Q])
    /\ at_pc st = AtFrameWait.
Proof.
  destruct (listen_begins_with_handshake Scenario.url Scenario.heartbeat
              Scenario.credentials _convert_to_internal_order_format
              _convert_to_internal_balance_format [] Scenario.handshake
              (Some 7%nat)
              [get_ws_assistant; connect 7%nat Scenario.url;
               send 7%nat (ws_authenticate Scenario.credentials 1)]
              (Done 7%nat) eq_refl)
    as (st & t & Hl & Hpc & _).
  exists st, t. split; [exact Hl | exact Hpc].
Defined.

Lemma subscribe_channels_sends_second_fails :
  subscribe_channels_run Scenario.spot_subscribe 7%nat ["BTC-USDT"; "ETH-USDT"; "LTC-USDT"]
    [mkInput Returned 1; mkInput (Raised (Error "ConnectionError")) 2]
  = Some (repeat (send 7%nat (subscribe_payload Scenario.spot_subscribe)) 2,
          Failed (Error "ConnectionError"))
  /\ length (repeat (send 7%nat (subscribe_payload Scenario.spot_subscribe)) 2)
     = length [mkInput Returned 1; mkInput (Raised (Error "ConnectionError")) 2].
Proof.
  assert (Hr : subscribe_channels_run Scenario.spot_subscribe 7%nat
                 ["BTC-USDT"; "ETH-USDT"; "LTC-USDT"]
                 [mkInput Returned 1; mkInput (Raised (Error "ConnectionError")) 2]
               = Some (repeat (send 7%nat (subscribe_payload Scenario.spot_subscribe)) 2,
                       Failed (Error "ConnectionError"))) by reflexivity.
  split; [exact Hr |].
  destruct (proj1 (subscribe_channels_sends Scenario.spot_subscribe 7%nat
                     ["BTC-USDT"; "ETH-USDT"; "LTC-USDT"]) _ _ _ Hr)
    as (_ & _ & Hlen & _).
  exact Hlen.
Defined.

Lemma supervisor_pushes_only_none_failed_cycle :
  exists st evs n,
    listen_for_user_stream Scenario.url Scenario.heartbeat Scenario.credentials
      _convert_to_internal_order_format _convert_to_internal_balance_format
      [] Scenario.one_failed_cycle = Some (st, evs)
    /\ output st = [] ++ repeat JNull n.
Proof.
  eexists _, _.
  assert (Hl : listen_for_user_stream Scenario.url Scenario.heartbeat
                 Scenario.credentials _convert_to_internal_order_format
                 _convert_to_internal_balance_format [] Scenario.one_failed_cycle
               = Some (mkState AtConnect (Some 7%nat) (Some 7%nat) None 0 [],
                       [ get_ws_assistant; connect 7%nat Scenario.url;
                         log_exception retry_message; disconnect 7%nat; sleep 5;
                         connect 7%nat Scenario.url ])) by reflexivity.
  destruct (supervisor_pushes_only_none Scenario.url Scenario.heartbeat
              Scenario.credentials [] Scenario.one_failed_cycle _ _ Hl) as [n Hn].
  exists n. split; [exact Hl | exact Hn].
Defined.
